(** * Logs volume aggregation of the ClickHouse Grafana datasource

    A shallow embedding of the logs-volume module (queryLogsVolume,
    aggregateRawLogsVolume, getLogVolumeFieldConfig, getIntervalInfo,
    getTimeFieldRoundingClause) together with the properties its
    specification states about it.

    Conventions of the embedding:
    - a JavaScript cell of a numeric column is [null], [undefined] or a
      number; numbers are integer counts and are modelled in [Z]; the
      code adds them as doubles, which is exact as long as magnitudes
      stay within 2^53 ([toDouble], [jsAdd], [totalValueDouble]);
    - a thrown exception is the [None] of an [option] result;
    - the JavaScript [Map] keeps insertion order and is an association
      list;
    - what comes from @grafana/data and @grafana/ui and is not fixed by
      this module (the level classifier, the colour palette, the filler
      of a freshly sized column) is a [Variable] of the section;
    - the rxjs subscribers behind [observer] and [subscription] are
      part of the state of the pipeline: a stopped subscriber ignores
      what it is told, and closing one runs its teardown. *)

From Stdlib Require Import ZArith Lia Bool Ascii String.
From Stdlib Require PrimFloat Uint63.
From stdpp Require Import base option list strings.

Local Open Scope string_scope.
Local Open Scope list_scope.
Local Open Scope Z_scope.

(** ** JavaScript values of a numeric column *)

Inductive JsVal : Type :=
| VNull
| VUndefined
| VNum (n : Z).

#[global] Instance JsVal_eq_dec : EqDecision JsVal.
Proof. solve_decision. Defined.

(** [v === null] *)
Definition is_null (v : JsVal) : bool :=
  match v with VNull => true | _ => false end.

(** [v || 0] for a numeric-or-absent cell *)
Definition or_zero (v : JsVal) : Z :=
  match v with VNum n => n | _ => 0 end.

(** [v > 0]; [null > 0] and [undefined > 0] are false *)
Definition gt_zero (v : JsVal) : bool :=
  match v with VNum n => 0 <? n | _ => false end.

(** The expression bound to [totalValue] in the summing loop:
    [currentValue === null && valueToAdd === null ? null
       : (currentValue || 0) + (valueToAdd || 0)]. *)
Definition totalValue (currentValue valueToAdd : JsVal) : JsVal :=
  if is_null currentValue && is_null valueToAdd then VNull
  else VNum (or_zero currentValue + or_zero valueToAdd).

(** ** Log levels *)

Module LogLevel.
Inductive t : Type :=
| critical | error | warning | info | debug | trace | unknown.

#[global] Instance eq_dec : EqDecision t.
Proof. solve_decision. Defined.

(** The string value of each member of the enumeration. *)
Definition to_string (l : t) : string :=
  match l with
  | critical => "critical"
  | error => "error"
  | warning => "warning"
  | info => "info"
  | debug => "debug"
  | trace => "trace"
  | unknown => "unknown"
  end.
End LogLevel.

(** ** Frames *)

Record Field : Type := mkField {
  name : string;
  values : list JsVal
}.

Record DataQuery : Type := mkDataQuery { refId : string }.

(** [meta.custom]: the echoed targets and the absolute range (from, to)
    in epoch milliseconds. *)
Record FrameMeta : Type := mkMeta {
  custom_targets : list DataQuery;
  custom_absoluteRange : Z * Z
}.

Record DataFrame : Type := mkDataFrame {
  fields : list Field
}.

(** The part of the field configuration that varies; draw style, bar
    alignment, line width, opacity and stacking are constants. *)
Record FieldConfig : Type := mkFieldConfig {
  displayNameFromDS : string;
  fixedColor : string
}.

(** A [MutableDataFrame] with the two fields the reducer adds to it,
    'Time' first and 'Value' second. *)
Record MutableDataFrame : Type := mkMutableDataFrame {
  Time : list JsVal;
  Value : list JsVal;
  config : FieldConfig;
  meta : option FrameMeta
}.

Record LevelEntry : Type := mkLevelEntry {
  frame : MutableDataFrame;
  hasNonZeroValues : bool
}.

Definition TIME_FIELD_ALIAS : string := "time".
Definition DEFAULT_LOGS_ALIAS : string := "logs".

(** [vector.get(i)]: reading outside the buffer gives [undefined]. *)
Definition vector_get (l : list JsVal) (i : nat) : JsVal :=
  default VUndefined (l !! i).

(** [buffer[i] = v]: inside the buffer the cell is replaced, at or past
    its end the array grows (holes read as [undefined]). *)
Definition vector_set (l : list JsVal) (i : nat) (v : JsVal) : list JsVal :=
  if (i <? length l)%nat then <[i:=v]> l
  else l ++ replicate (i - length l) VUndefined ++ [v].

(** [frame.set(index, {Value, Time})]: throws past the current length
    (the length of the first field), otherwise writes both fields. *)
Definition frame_set (df : MutableDataFrame) (index : nat) (v t : JsVal)
  : option MutableDataFrame :=
  if (length (Time df) <? index)%nat then None
  else Some {| Time := vector_set (Time df) index t;
               Value := vector_set (Value df) index v;
               config := config df;
               meta := meta df |}.

(** ** The insertion-ordered Map *)

Section JsMap.
Context {V : Type}.

Fixpoint Map_get (k : LogLevel.t) (m : list (LogLevel.t * V)) : option V :=
  match m with
  | [] => None
  | (k', v) :: m' => if decide (k' = k) then Some v else Map_get k m'
  end.

(** An existing key keeps its place; a new key goes last. *)
Fixpoint Map_set (k : LogLevel.t) (v : V) (m : list (LogLevel.t * V))
  : list (LogLevel.t * V) :=
  match m with
  | [] => [(k, v)]
  | (k', v') :: m' =>
      if decide (k' = k) then (k, v) :: m' else (k', v') :: Map_set k v m'
  end.

Definition Map_values (m : list (LogLevel.t * V)) : list V := m.*2.
End JsMap.

(** ** The reducer *)

Section Reducer.
(** [getLogLevelFromKey] of @grafana/data. *)
Variable getLogLevelFromKey : string -> LogLevel.t.
(** The per-level palette [LogLevelColor]. *)
Variable LogLevelColor : LogLevel.t -> string.
(** The value [addField] pads a column with up to its start length. *)
Variable MISSING_VALUE : JsVal.

Definition getLogVolumeFieldConfig (level : LogLevel.t) (oneLevelDetected : bool)
  : FieldConfig :=
  let name :=
    if oneLevelDetected && bool_decide (level = LogLevel.unknown)
    then "logs" else LogLevel.to_string level in
  let color := LogLevelColor level in
  {| displayNameFromDS := name; fixedColor := color |}.

(** The entry created when a level is met for the first time: an empty
    frame to which 'Time' and 'Value' are added with [totalLength]
    cells each. *)
Definition newLevelEntry (logLevel : LogLevel.t) (oneLevelDetected : bool)
    (totalLength : nat) : LevelEntry :=
  {| frame := {| Time := replicate totalLength MISSING_VALUE;
                 Value := replicate totalLength MISSING_VALUE;
                 config := getLogVolumeFieldConfig logLevel oneLevelDetected;
                 meta := None |};
     hasNonZeroValues := false |}.

(** One turn of the [for] loop at row [pointIndex]. *)
Definition sumPoint (timeField field : Field) (pointIndex : nat)
    (df : LevelEntry) : option LevelEntry :=
  let currentValue := vector_get (Value (frame df)) pointIndex in
  let valueToAdd := vector_get (values field) pointIndex in
  let total := totalValue currentValue valueToAdd in
  let flag :=
    if gt_zero total && negb (hasNonZeroValues df) then true
    else hasNonZeroValues df in
  frame' ← frame_set (frame df) pointIndex total
              (vector_get (values timeField) pointIndex);
  Some {| frame := frame'; hasNonZeroValues := flag |}.

(** The [for] loop: [remaining] turns are left, the next one is at
    [pointIndex]. *)
Fixpoint sumLoop (timeField field : Field) (pointIndex remaining : nat)
    (df : LevelEntry) : option LevelEntry :=
  match remaining with
  | O => Some df
  | S remaining' =>
      df' ← sumPoint timeField field pointIndex df;
      sumLoop timeField field (S pointIndex) remaining' df'
  end.

(** The body of [levelFields.forEach]. *)
Definition foldField (timeField : Field) (oneLevelDetected : bool)
    (totalLength : nat) (m : list (LogLevel.t * LevelEntry)) (field : Field)
  : option (list (LogLevel.t * LevelEntry)) :=
  let logLevel := getLogLevelFromKey (name field) in
  let df :=
    match Map_get logLevel m with
    | Some df => df
    | None => newLevelEntry logLevel oneLevelDetected totalLength
    end in
  df' ← sumLoop timeField field 0 totalLength df;
  Some (Map_set logLevel df' m).

Fixpoint forEachField (timeField : Field) (oneLevelDetected : bool)
    (totalLength : nat) (levelFields : list Field)
    (m : list (LogLevel.t * LevelEntry))
  : option (list (LogLevel.t * LevelEntry)) :=
  match levelFields with
  | [] => Some m
  | field :: rest =>
      m' ← foldField timeField oneLevelDetected totalLength m field;
      forEachField timeField oneLevelDetected totalLength rest m'
  end.

Definition isTimeField (f : Field) : bool := String.eqb (name f) TIME_FIELD_ALIAS.

(** lodash [partition]: the fields named 'time', then the others. *)
Definition partitionFields (fs : list Field) : list Field * list Field :=
  (filter (fun f => isTimeField f = true) fs,
   filter (fun f => isTimeField f = false) fs).

Definition oneLevel (levelFields : list Field) : bool :=
  match levelFields with
  | [f] => String.eqb (name f) DEFAULT_LOGS_ALIAS
  | _ => false
  end.

(** The final [reduce]: the frames of the entries whose flag is set. *)
Definition nonZeroFrames (m : list (LogLevel.t * LevelEntry))
  : list MutableDataFrame :=
  foldl (fun acc e => if hasNonZeroValues e then acc ++ [frame e] else acc)
        [] (Map_values m).

(** The map [logLevelToDataFrame] once [forEach] has run. *)
Definition logLevelToDataFrame (timeField : Field) (levelFields : list Field)
  : option (list (LogLevel.t * LevelEntry)) :=
  forEachField timeField (oneLevel levelFields)
    (length (values timeField)) levelFields [].

Definition aggregateRawLogsVolume (rawLogsVolume : list DataFrame)
  : option (list MutableDataFrame) :=
  match rawLogsVolume with
  | [raw] =>
      let (timeFields, levelFields) := partitionFields (fields raw) in
      match head timeFields with
      | None => Some []
      | Some timeField =>
          m ← logLevelToDataFrame timeField levelFields;
          Some (nonZeroFrames m)
      end
  | _ => Some []
  end.
End Reducer.

(** Modelled from the spec: the level classifier [getLogLevelFromKey] is
    imported from @grafana/data and its synonym table is not part of this
    module.  This instance knows the canonical names and the synonyms the
    specification lists (warn, err, information, informational) and sends
    every other name to [unknown]; it serves to run the reducer on
    concrete frames. *)
Definition classify (rawName : string) : LogLevel.t :=
  if String.eqb rawName "critical" then LogLevel.critical
  else if String.eqb rawName "err" then LogLevel.error
  else if String.eqb rawName "error" then LogLevel.error
  else if String.eqb rawName "warn" then LogLevel.warning
  else if String.eqb rawName "warning" then LogLevel.warning
  else if String.eqb rawName "info" then LogLevel.info
  else if String.eqb rawName "information" then LogLevel.info
  else if String.eqb rawName "informational" then LogLevel.info
  else if String.eqb rawName "debug" then LogLevel.debug
  else if String.eqb rawName "trace" then LogLevel.trace
  else LogLevel.unknown.

(** A palette for concrete runs: the colour of a level is its name. *)
Definition plainColor (l : LogLevel.t) : string := LogLevel.to_string l.

Definition nums (l : list Z) : list JsVal := VNum <$> l.

Definition warnFrame : DataFrame :=
  mkDataFrame [ mkField "time" (nums [0; 60000; 120000]);
                mkField "warn" (nums [1; 0; 2]);
                mkField "warning" (nums [0; 0; 1]) ].

(** ** Interval resolution *)

Definition MILLISECOND : Z := 1.
Definition SECOND : Z := 1000 * MILLISECOND.
Definition MINUTE : Z := 60 * SECOND.
Definition HOUR : Z := 60 * MINUTE.
Definition DAY : Z := 24 * HOUR.

Record ScopedVar (T : Type) : Type := mkScopedVar {
  text : string;
  value : T
}.
Arguments mkScopedVar {T} _ _.
Arguments text {T} _.
Arguments value {T} _.

(** The two scoped variables the module reads.  A variable that is set is
    an object and hence truthy; [__interval_ms.value] is a number. *)
Record ScopedVars : Type := mkScopedVars {
  __interval : option (ScopedVar string);
  __interval_ms : option (ScopedVar Z)
}.

Record IntervalInfo : Type := mkIntervalInfo {
  interval : string;
  intervalMs : option Z
}.

(** Reading [.value] of an [__interval_ms] that is not there throws a
    TypeError, the [None] of the result. *)
Definition getIntervalInfo (scopedVars : ScopedVars) (timespanMs : Z)
  : option IntervalInfo :=
  match __interval scopedVars with
  | Some _ =>
      var ← __interval_ms scopedVars;
      let intervalMs := value var in
      if timespanMs <? SECOND * 5 then
        Some {| interval := "1ms"; intervalMs := Some MILLISECOND |}
      else if HOUR <? intervalMs then
        Some {| interval := "1d"; intervalMs := Some DAY |}
      else if MINUTE <? intervalMs then
        Some {| interval := "1h"; intervalMs := Some HOUR |}
      else if SECOND <? intervalMs then
        Some {| interval := "1m"; intervalMs := Some MINUTE |}
      else
        Some {| interval := "1s"; intervalMs := Some SECOND |}
  | None => Some {| interval := "$__interval"; intervalMs := None |}
  end.

Definition dquote : string := String "034"%char EmptyString.

(** The template literal
    [toStartOfInterval(<dq>timeField<dq>, INTERVAL 1 interval)]. *)
Definition roundingClause (timeField interval : string) : string :=
  "toStartOfInterval(" +:+ dquote +:+ timeField +:+ dquote
    +:+ ", INTERVAL 1 " +:+ interval +:+ ")".

(** The result is the returned clause together with the lines written by
    [console.error]; [timeField] defaults to 'created_at'. *)
Definition getTimeFieldRoundingClause (scopedVars : ScopedVars)
    (timespanMs : Z) (timeField : option string)
  : option (string * list string) :=
  let timeField := default "created_at" timeField in
  let interval := "DAY" in
  match __interval scopedVars with
  | Some _ =>
      var ← __interval_ms scopedVars;
      let intervalMs := value var in
      if timespanMs <? SECOND * 5 then
        Some (roundingClause timeField interval,
              ["MILLIS precision is not supported"])
      else if HOUR <? intervalMs then
        Some (roundingClause timeField "DAY", [])
      else if MINUTE <? intervalMs then
        Some (roundingClause timeField "HOUR", [])
      else if SECOND <? intervalMs then
        Some (roundingClause timeField "MINUTE", [])
      else
        Some (roundingClause timeField "SECOND", [])
  | None => Some (roundingClause timeField interval, [])
  end.

(** ** The aggregation pipeline *)

Module LoadingState.
Inductive t : Type := Loading | Done | Error.

#[global] Instance eq_dec : EqDecision t.
Proof. solve_decision. Defined.
End LoadingState.

Record DataQueryError : Type := mkDataQueryError { message : string }.

(** A response, as delivered by the datasource ([D] is the raw frame
    data) and as published by the pipeline ([D] is an output frame). *)
Record DataQueryResponse (D : Type) : Type := mkResponse {
  state : option LoadingState.t;
  error : option DataQueryError;
  data : list D
}.
Arguments mkResponse {D} _ _ _.
Arguments state {D} _.
Arguments error {D} _.
Arguments data {D} _.

Record TimeRange : Type := mkTimeRange {
  from : Z;   (* range.from.valueOf() *)
  to : Z      (* range.to.valueOf() *)
}.

Record LogsVolumeQueryOptions : Type := mkOptions {
  targets : list DataQuery;
  range : TimeRange
}.

(** What the subscriber of the returned observable receives. *)
Inductive Notification : Type :=
| NextN (r : DataQueryResponse MutableDataFrame)
| ErrorN (e : DataQueryError)
| CompleteN.

(** What the observable of the datasource may send. *)
Inductive Signal (RawData : Type) : Type :=
| UpNext (r : DataQueryResponse RawData)
| UpError (e : DataQueryError)
| UpComplete.
Arguments UpNext {RawData} _.
Arguments UpError {RawData} _.
Arguments UpComplete {RawData}.

(** What happens once the subscribe function has returned: the
    datasource sends a signal, or the caller unsubscribes. *)
Inductive Event (RawData : Type) : Type :=
| FromUpstream (sig : Signal RawData)
| Unsubscribe.
Arguments FromUpstream {RawData} _.
Arguments Unsubscribe {RawData}.

(** The state of one subscription to the returned observable.
    [observerStopped] is the state of the rxjs subscriber behind
    [observer] (stopped by error, complete or unsubscribe: later calls of
    its methods do nothing); [subscriptionClosed] is that of the
    subscriber behind [subscription]; [teardownAdded] tells whether the
    subscribe function has returned its teardown. *)
Record Pipeline : Type := mkPipeline {
  rawLogsVolume : list DataFrame;
  observerStopped : bool;
  emitted : list Notification;
  subscriptionClosed : bool;
  teardownAdded : bool;
  queriesIssued : nat
}.

Definition emit (n : Notification) (s : Pipeline) : Pipeline :=
  {| rawLogsVolume := rawLogsVolume s;
     observerStopped := observerStopped s;
     emitted := emitted s ++ [n];
     subscriptionClosed := subscriptionClosed s;
     teardownAdded := teardownAdded s;
     queriesIssued := queriesIssued s |}.

(** [subscription?.unsubscribe()] *)
Definition subscription_unsubscribe (s : Pipeline) : Pipeline :=
  {| rawLogsVolume := rawLogsVolume s;
     observerStopped := observerStopped s;
     emitted := emitted s;
     subscriptionClosed := true;
     teardownAdded := teardownAdded s;
     queriesIssued := queriesIssued s |}.

(** Closing the subscriber behind [observer] runs the teardown, if the
    subscribe function has returned it already. *)
Definition observer_close (s : Pipeline) : Pipeline :=
  let s' :=
    {| rawLogsVolume := rawLogsVolume s;
       observerStopped := true;
       emitted := emitted s;
       subscriptionClosed := subscriptionClosed s;
       teardownAdded := teardownAdded s;
       queriesIssued := queriesIssued s |} in
  if teardownAdded s then subscription_unsubscribe s' else s'.

Definition observer_next (r : DataQueryResponse MutableDataFrame)
    (s : Pipeline) : Pipeline :=
  if observerStopped s then s else emit (NextN r) s.

Definition observer_error (e : DataQueryError) (s : Pipeline) : Pipeline :=
  if observerStopped s then s else observer_close (emit (ErrorN e) s).

Definition observer_complete (s : Pipeline) : Pipeline :=
  if observerStopped s then s else observer_close (emit CompleteN s).

Definition observer_unsubscribe (s : Pipeline) : Pipeline :=
  if observerStopped s then s else observer_close s.

(** [aggregatedLogsVolume[0].meta = ...] when there is a first frame. *)
Definition attachMeta (options : LogsVolumeQueryOptions)
    (aggregatedLogsVolume : list MutableDataFrame) : list MutableDataFrame :=
  match aggregatedLogsVolume with
  | [] => []
  | first :: rest =>
      {| Time := Time first;
         Value := Value first;
         config := config first;
         meta := Some {| custom_targets := targets options;
                         custom_absoluteRange :=
                           (from (range options), to (range options)) |} |}
      :: rest
  end.

Section Pipeline.
Variable getLogLevelFromKey : string -> LogLevel.t.
Variable LogLevelColor : LogLevel.t -> string.
Variable MISSING_VALUE : JsVal.
(** The frame-like data of a response and [toDataFrame]. *)
Variable RawData : Type.
Variable toDataFrame : RawData -> DataFrame.
Variable options : LogsVolumeQueryOptions.

(** The [complete] handler.  Were the reducer to throw, nothing would
    reach [observer]. *)
Definition on_complete (s : Pipeline) : Pipeline :=
  match aggregateRawLogsVolume getLogLevelFromKey LogLevelColor
          MISSING_VALUE (rawLogsVolume s) with
  | Some aggregatedLogsVolume =>
      let aggregatedLogsVolume := attachMeta options aggregatedLogsVolume in
      observer_complete
        (observer_next
           {| state := Some LoadingState.Done;
              error := None;
              data := aggregatedLogsVolume |} s)
  | None => s
  end.

(** The [next] handler. *)
Definition on_next (dataQueryResponse : DataQueryResponse RawData)
    (s : Pipeline) : Pipeline :=
  match error dataQueryResponse with
  | Some err =>
      observer_error err
        (observer_next
           {| state := Some LoadingState.Error;
              error := Some err;
              data := [] |} s)
  | None =>
      {| rawLogsVolume :=
           rawLogsVolume s ++ (toDataFrame <$> data dataQueryResponse);
         observerStopped := observerStopped s;
         emitted := emitted s;
         subscriptionClosed := subscriptionClosed s;
         teardownAdded := teardownAdded s;
         queriesIssued := queriesIssued s |}
  end.

(** The [error] handler. *)
Definition on_error (err : DataQueryError) (s : Pipeline) : Pipeline :=
  observer_error err
    (observer_next
       {| state := Some LoadingState.Error;
          error := Some err;
          data := [] |} s).

(** A signal of the datasource reaches the handlers through the
    subscriber behind [subscription]: nothing passes once it is closed,
    and an error or a completion closes it. *)
Definition deliver (s : Pipeline) (sig : Signal RawData) : Pipeline :=
  if subscriptionClosed s then s
  else match sig with
       | UpNext r => on_next r s
       | UpError e => subscription_unsubscribe (on_error e s)
       | UpComplete => subscription_unsubscribe (on_complete s)
       end.

(** The state in which the subscribe function starts, before its first
    statement. *)
Definition start : Pipeline :=
  {| rawLogsVolume := [];
     observerStopped := false;
     emitted := [];
     subscriptionClosed := false;
     teardownAdded := false;
     queriesIssued := 0 |}.

(** [datasource.query(logsVolumeRequest)] *)
Definition issueQuery (s : Pipeline) : Pipeline :=
  {| rawLogsVolume := rawLogsVolume s;
     observerStopped := observerStopped s;
     emitted := emitted s;
     subscriptionClosed := subscriptionClosed s;
     teardownAdded := teardownAdded s;
     queriesIssued := S (queriesIssued s) |}.

(** The subscribe function returns its teardown; rxjs runs it at once
    when [observer] was stopped in the meantime. *)
Definition addTeardown (s : Pipeline) : Pipeline :=
  let s' :=
    {| rawLogsVolume := rawLogsVolume s;
       observerStopped := observerStopped s;
       emitted := emitted s;
       subscriptionClosed := subscriptionClosed s;
       teardownAdded := true;
       queriesIssued := queriesIssued s |} in
  if observerStopped s then subscription_unsubscribe s' else s'.

(** The subscribe function, from its first statement to its return;
    [sync] are the signals the datasource sends from within
    [queryObservable.subscribe]. *)
Definition subscribe (sync : list (Signal RawData)) : Pipeline :=
  let s :=
    observer_next
      {| state := Some LoadingState.Loading; error := None; data := [] |}
      start in
  let s := issueQuery s in
  let s := foldl deliver s sync in
  addTeardown s.

Definition react (s : Pipeline) (ev : Event RawData) : Pipeline :=
  match ev with
  | FromUpstream sig => deliver s sig
  | Unsubscribe => observer_unsubscribe s
  end.

(** One subscription to the observable of [queryLogsVolume], run
    against what the datasource sends and what the caller does. *)
Definition queryLogsVolume (sync : list (Signal RawData))
    (later : list (Event RawData)) : Pipeline :=
  foldl react (subscribe sync) later.
End Pipeline.

(** The states published to the caller, in order. *)
Definition published (s : Pipeline) : list (DataQueryResponse MutableDataFrame) :=
  omap (fun n => match n with NextN r => Some r | _ => None end) (emitted s).

Definition isTerminal (r : DataQueryResponse MutableDataFrame) : bool :=
  match state r with
  | Some LoadingState.Done | Some LoadingState.Error => true
  | _ => false
  end.

(** * Vocabulary of the properties *)

(** Lengths of the two columns of an accumulated frame. *)
Definition sized (n : nat) (df : LevelEntry) : Prop :=
  length (Time (frame df)) = n /\ length (Value (frame df)) = n.

(** The entry the body of [forEach] starts from for a level. *)
Definition entryOr (LogLevelColor : LogLevel.t -> string) (MISSING_VALUE : JsVal)
    (timeField : Field) (oneLevelDetected : bool)
    (lvl : LogLevel.t) (m : list (LogLevel.t * LevelEntry)) : LevelEntry :=
  default (newLevelEntry LogLevelColor MISSING_VALUE lvl oneLevelDetected
             (length (values timeField)))
          (Map_get lvl m).

(** Every entry of the Map has as many rows as the time field. *)
Definition allSized (timeField : Field) (m : list (LogLevel.t * LevelEntry))
  : Prop :=
  forall k e, Map_get k m = Some e -> sized (length (values timeField)) e.

(** A cell that holds a positive number. *)
Definition positive (v : JsVal) : Prop := exists z, v = VNum z /\ 0 < z.

#[global] Instance positive_dec v : Decision (positive v).
Proof.
  destruct v as [| |z].
  - right. intros (z & Hz & _). discriminate.
  - right. intros (z & Hz & _). discriminate.
  - destruct (decide (0 < z)) as [Hpos|Hneg].
    + left. exists z. split; [reflexivity | exact Hpos].
    + right. intros (z' & Hz & Hpos). injection Hz as ->. contradiction.
Defined.

(** A cell of a count column: no value, or a number that is not
    negative. *)
Definition isCount (v : JsVal) : Prop :=
  match v with VNum z => 0 <= z | _ => True end.

(** A filler that stands for 'no value'. *)
Definition absent (v : JsVal) : Prop := v = VNull \/ v = VUndefined.

(** The output holds, in Map order, the frames of exactly those levels
    whose accumulated series has a positive row. *)
Definition emitsPositiveLevels (m : list (LogLevel.t * LevelEntry))
    (out : list MutableDataFrame) : Prop :=
  out = frame <$> filter (fun e => Exists positive (Value (frame e))) (Map_values m).

(** The first field named 'time' and the fields not named 'time'. *)
Definition timeFieldOf (raw : DataFrame) : option Field :=
  head (partitionFields (fields raw)).1.

Definition levelFieldsOf (raw : DataFrame) : list Field :=
  (partitionFields (fields raw)).2.

(** The cells at row [i] of the columns that classify to [lvl], in the
    order of the columns. *)
Definition columnCells (getLogLevelFromKey : string -> LogLevel.t)
    (lvl : LogLevel.t) (levelFields : list Field) (i : nat) : list JsVal :=
  (fun f => vector_get (values f) i)
    <$> filter (fun f => getLogLevelFromKey (name f) = lvl) levelFields.


(** The single level column that carries the generic 'logs' name and
    classifies to the unknown level. *)
Definition genericLogsOnly (getLogLevelFromKey : string -> LogLevel.t)
    (levelFields : list Field) : Prop :=
  exists field,
    levelFields = [field] /\ name field = DEFAULT_LOGS_ALIAS /\
    getLogLevelFromKey (name field) = LogLevel.unknown.

Definition noTimeFrame : DataFrame :=
  mkDataFrame [ mkField "warn" (nums [1; 0; 2]) ].

Definition mixedFrame : DataFrame :=
  mkDataFrame [ mkField "time" (nums [0; 60000]);
                mkField "warn" (nums [1; 0]);
                mkField "trace" (nums [0; 0]);
                mkField "warning" [VNull; VNum 2] ].

(** A frame whose two 'warning' columns cancel out: 1 and -1. *)
Definition cancellingFrame : DataFrame :=
  mkDataFrame [ mkField "time" (nums [0]);
                mkField "warn" (nums [1]);
                mkField "warning" (nums [-1]) ].

Definition logsFrame : DataFrame :=
  mkDataFrame [ mkField "time" (nums [0; 60000]);
                mkField "logs" [VNull; VNum 4] ].

Definition loadingState : DataQueryResponse MutableDataFrame :=
  {| state := Some LoadingState.Loading; error := None; data := [] |}.

Definition errorState (e : DataQueryError) : DataQueryResponse MutableDataFrame :=
  {| state := Some LoadingState.Error; error := Some e; data := [] |}.

Definition doneState (d : list MutableDataFrame)
  : DataQueryResponse MutableDataFrame :=
  {| state := Some LoadingState.Done; error := None; data := d |}.

(** A signal that carries the error [e]: an error of the channel, or a
    batch with an embedded error. *)
Definition carriesError {RawData} (sig : Signal RawData) (e : DataQueryError)
  : Prop :=
  sig = UpError e \/ exists r, sig = UpNext r /\ error r = Some e.

(** A batch without an embedded error. *)
Definition plainBatch {RawData} (sig : Signal RawData) : Prop :=
  exists r, sig = UpNext r /\ error r = None.

(** The first signal that is not a plain batch carries the error [e],
    and the caller has not unsubscribed before it. *)
Definition failsFirstWith {RawData} (sync : list (Signal RawData))
    (later : list (Event RawData)) (e : DataQueryError) : Prop :=
  (exists pre sig post,
     sync = pre ++ sig :: post /\ Forall plainBatch pre /\ carriesError sig e) \/
  (Forall plainBatch sync /\
   exists pre sig post,
     later = (FromUpstream <$> pre) ++ FromUpstream sig :: post /\
     Forall plainBatch pre /\ carriesError sig e).

(** The three shapes of what a subscriber has received. *)
Definition lifecycle (s : Pipeline) : Prop :=
  (observerStopped s = false /\ emitted s = [NextN loadingState]) \/
  (observerStopped s = true /\
   (emitted s = [NextN loadingState] \/
    (exists d, emitted s = [NextN loadingState; NextN (doneState d); CompleteN]) \/
    (exists e, emitted s = [NextN loadingState; NextN (errorState e); ErrorN e]))).

(** Once the subscribe function has returned, a stopped [observer]
    means a closed [subscription]. *)
Definition tornDown (s : Pipeline) : Prop :=
  teardownAdded s = true /\
  (observerStopped s = true -> subscriptionClosed s = true).

(** A Done state among the published ones. *)
Definition publishedDone (s : Pipeline) : Prop :=
  exists r, r ∈ published s /\ state r = Some LoadingState.Done.

Definition someOptions : LogsVolumeQueryOptions :=
  {| targets := [mkDataQuery "A"];
     range := {| from := 1700000000000; to := 1700000120000 |} |}.

Definition someError : DataQueryError := mkDataQueryError "Code: 60. Unknown table".

Definition warnBatch : DataQueryResponse DataFrame :=
  {| state := None; error := None; data := [warnFrame] |}.

(** * Vocabulary of the further properties *)


(** The distinct levels of a list, each at the place of its first
    occurrence. *)
Definition firstSeen (l : list LogLevel.t) : list LogLevel.t :=
  foldl (fun acc k => if decide (k ∈ acc) then acc else acc ++ [k]) [] l.

(** Folding the cells one after the other from [start], some partial
    sum is a positive number. *)
Definition partialSumPositive (start : JsVal) (cells : list JsVal) : Prop :=
  exists k, (k < length cells)%nat /\
    gt_zero (foldl totalValue start (take (S k) cells)) = true.

(** A level column cut or padded to [n] cells, the padding being what a
    read past the end of the column gives. *)
Definition resizeField (n : nat) (f : Field) : Field :=
  {| name := name f; values := resize n VUndefined (values f) |}.

(** The frames of the plain batches among the signals, in order. *)
Definition batchData {RawData} (sigs : list (Signal RawData)) : list RawData :=
  sigs ≫= (fun sig => match sig with UpNext r => data r | _ => [] end).

(** The datasource sends the plain batches [batches] and then completes,
    within the subscription or later, and the caller has not
    unsubscribed before. *)
Definition completesAfter {RawData} (sync : list (Signal RawData))
    (later : list (Event RawData)) (batches : list (Signal RawData)) : Prop :=
  Forall plainBatch batches /\
  ((exists post, sync = batches ++ UpComplete :: post) \/
   (exists now then_ post,
      batches = now ++ then_ /\ sync = now /\
      later = (FromUpstream <$> then_) ++ FromUpstream UpComplete :: post)).

(** The results [getIntervalInfo] can give. *)
Definition knownIntervals : list IntervalInfo :=
  [ {| interval := "$__interval"; intervalMs := None |};
    {| interval := "1ms"; intervalMs := Some 1 |};
    {| interval := "1s"; intervalMs := Some 1000 |};
    {| interval := "1m"; intervalMs := Some 60000 |};
    {| interval := "1h"; intervalMs := Some 3600000 |};
    {| interval := "1d"; intervalMs := Some 86400000 |} ].

(** Two frames of the same level, one with negative cells. *)
Definition dippingFrame : DataFrame :=
  mkDataFrame [ mkField "time" (nums [0; 60000]);
                mkField "err" (nums [2; 0]);
                mkField "error" (nums [-3; 0]);
                mkField "debug" (nums [-1; 0]) ].

(** A frame whose columns do not have the length of the time field. *)
Definition raggedFrame : DataFrame :=
  mkDataFrame [ mkField "time" (nums [0; 60000]);
                mkField "warn" (nums [1; 0; 7; 9]);
                mkField "info" (nums [5]) ].

(** * Numbers as the code adds them *)

(** The double nearest to an integer, ties going to the even
    significand: an integer of magnitude up to 2^53 is a double; beyond,
    a double keeps 53 significant bits.  (Magnitudes are taken below
    2^1024, where doubles overflow.) *)
Definition toDouble (z : Z) : Z :=
  let a := Z.abs z in
  if a <=? 2 ^ 53 then z
  else
    let e := Z.log2 a - 52 in
    let q := a / 2 ^ e in
    let r := a mod 2 ^ e in
    let half := 2 ^ (e - 1) in
    let q' := if (half <? r) || ((r =? half) && Z.odd q) then q + 1 else q in
    Z.sgn z * (q' * 2 ^ e).

(** [a + b] on two doubles that hold integers. *)
Definition jsAdd (a b : Z) : Z := toDouble (a + b).




(** * Properties *)

(** ** The folding operation *)






Lemma gt_zero_spec v : gt_zero v = true <-> exists z, v = VNum z /\ 0 < z.
Proof.
  destruct v as [| |z]; simpl; split.
  1-4: intros H; try discriminate; destruct H as (z & Hz & _); discriminate.
  - intros H. exists z. split; [reflexivity | lia].
  - intros (z' & Hz & Hpos). injection Hz as ->. lia.
Qed.

(** ** Vectors *)

Lemma vector_set_in_range l i v :
  (i < length l)%nat -> vector_set l i v = <[i:=v]> l.
Proof.
  intros H. unfold vector_set.
  destruct (Nat.ltb_spec i (length l)); [reflexivity | lia].
Qed.

Lemma vector_get_lookup l i v : l !! i = Some v -> vector_get l i = v.
Proof. unfold vector_get. intros ->. reflexivity. Qed.

Lemma vector_get_replicate n i v :
  (i < n)%nat -> vector_get (replicate n v) i = v.
Proof.
  intros H. apply vector_get_lookup. apply lookup_replicate_2. exact H.
Qed.

(** ** The summing loop *)

Section LoopFacts.
Variables timeField field : Field.
Variable n : nat.

Lemma sumPoint_spec pointIndex df :
  sized n df -> (pointIndex < n)%nat ->
  sumPoint timeField field pointIndex df =
    Some {| frame :=
              {| Time := <[pointIndex := vector_get (values timeField) pointIndex]>
                           (Time (frame df));
                 Value := <[pointIndex :=
                              totalValue (vector_get (Value (frame df)) pointIndex)
                                (vector_get (values field) pointIndex)]>
                            (Value (frame df));
                 config := config (frame df);
                 meta := meta (frame df) |};
            hasNonZeroValues :=
              hasNonZeroValues df
              || gt_zero (totalValue (vector_get (Value (frame df)) pointIndex)
                            (vector_get (values field) pointIndex)) |}.
Proof.
  intros [Ht Hv] Hlt. unfold sumPoint, frame_set.
  destruct (Nat.ltb_spec (length (Time (frame df))) pointIndex); [lia|].
  simpl. rewrite !vector_set_in_range by lia.
  do 2 f_equal.
  destruct (gt_zero _), (hasNonZeroValues df); reflexivity.
Qed.

Lemma sumLoop_spec remaining : forall pointIndex df,
  sized n df -> (pointIndex + remaining = n)%nat ->
  exists df',
    sumLoop timeField field pointIndex remaining df = Some df' /\
    sized n df' /\
    config (frame df') = config (frame df) /\
    meta (frame df') = meta (frame df) /\
    (forall i, (i < pointIndex)%nat ->
       Value (frame df') !! i = Value (frame df) !! i /\
       Time (frame df') !! i = Time (frame df) !! i) /\
    (forall i, (pointIndex <= i < n)%nat ->
       Value (frame df') !! i =
         Some (totalValue (vector_get (Value (frame df)) i)
                          (vector_get (values field) i)) /\
       Time (frame df') !! i = Some (vector_get (values timeField) i)) /\
    (hasNonZeroValues df' = true <->
       hasNonZeroValues df = true \/
       exists i, (pointIndex <= i < n)%nat /\
         gt_zero (totalValue (vector_get (Value (frame df)) i)
                             (vector_get (values field) i)) = true).
Proof.
  induction remaining as [|r IH]; intros p df Hs Hn.
  - exists df. simpl. split; [reflexivity|]. split; [exact Hs|].
    split; [reflexivity|]. split; [reflexivity|].
    split; [intros; auto|]. split; [intros; lia|].
    split; [auto | intros [H | (i & Hi & _)]; [exact H | lia]].
  - simpl. rewrite sumPoint_spec by (auto; lia). simpl.
    set (df1 := {| frame := _; hasNonZeroValues := _ |}).
    destruct Hs as [Ht Hv].
    assert (Hs1 : sized n df1).
    { split; simpl; rewrite length_insert; assumption. }
    destruct (IH (S p) df1 Hs1 ltac:(lia))
      as (df' & Hrun & Hs' & Hc & Hm & Hlow & Hhigh & Hflag).
    exists df'. split; [exact Hrun|]. split; [exact Hs'|].
    split; [exact Hc|]. split; [exact Hm|].
    assert (Hget : forall i, i <> p ->
              vector_get (Value (frame df1)) i = vector_get (Value (frame df)) i).
    { intros i Hi. unfold vector_get. simpl.
      rewrite list_lookup_insert_ne by auto. reflexivity. }
    split; [|split].
    + intros i Hi. destruct (Hlow i ltac:(lia)) as [-> ->]. simpl.
      rewrite !list_lookup_insert_ne by lia. auto.
    + intros i Hi. destruct (decide (i = p)) as [->|Hne].
      * destruct (Hlow p ltac:(lia)) as [-> ->]. simpl.
        rewrite !list_lookup_insert_eq by lia. auto.
      * destruct (Hhigh i ltac:(lia)) as [-> ->].
        rewrite Hget by auto. auto.
    + rewrite Hflag. simpl. rewrite orb_true_iff. split.
      * intros [[H | H] | (i & Hi & H)].
        -- left; exact H.
        -- right. exists p. split; [lia | exact H].
        -- right. exists i. split; [lia|]. rewrite <- Hget by lia. exact H.
      * intros [H | (i & Hi & H)]; [left; left; exact H|].
        destruct (decide (i = p)) as [->|Hne].
        -- left; right; exact H.
        -- right. exists i. split; [lia|]. rewrite Hget by auto. exact H.
Qed.
End LoopFacts.

(** ** The Map *)

Section MapFacts.
Context {V : Type}.
Implicit Types m : list (LogLevel.t * V).

Lemma Map_get_set_eq k v m : Map_get k (Map_set k v m) = Some v.
Proof.
  induction m as [|[k' v'] m IH]; simpl.
  - rewrite decide_True; reflexivity.
  - destruct (decide (k' = k)) as [->|Hne]; simpl.
    + rewrite decide_True; reflexivity.
    + rewrite decide_False by exact Hne. exact IH.
Qed.

Lemma Map_get_set_ne k k' v m :
  k <> k' -> Map_get k' (Map_set k v m) = Map_get k' m.
Proof.
  intros Hkk. induction m as [|[k0 v0] m IH]; simpl.
  - rewrite decide_False by exact Hkk. reflexivity.
  - destruct (decide (k0 = k)) as [->|Hne]; simpl.
    + rewrite !decide_False by exact Hkk. reflexivity.
    + rewrite IH. reflexivity.
Qed.

Lemma Map_get_elem_of k v m : Map_get k m = Some v -> (k, v) ∈ m.
Proof.
  induction m as [|[k' v'] m IH]; simpl; [discriminate|].
  destruct (decide (k' = k)) as [->|Hne].
  - intros [= ->]. left.
  - intros H. right. auto.
Qed.

Lemma Map_get_None k m : Map_get k m = None <-> k ∉ m.*1.
Proof.
  induction m as [|[k' v'] m IH]; simpl.
  - split; [intros _; apply not_elem_of_nil | reflexivity].
  - rewrite not_elem_of_cons. destruct (decide (k' = k)) as [->|Hne].
    + split; [discriminate | intros [H _]; congruence].
    + rewrite IH. split; [intros H; split; [congruence | exact H] | intros [_ H]; exact H].
Qed.

Lemma elem_of_Map_get k v m : NoDup m.*1 -> (k, v) ∈ m -> Map_get k m = Some v.
Proof.
  induction m as [|[k' v'] m IH]; simpl; intros Hnd Hin.
  - apply elem_of_nil in Hin. contradiction.
  - apply NoDup_cons in Hnd as [Hnotin Hnd].
    apply elem_of_cons in Hin as [[= -> ->]|Hin].
    + rewrite decide_True; reflexivity.
    + destruct (decide (k' = k)) as [->|Hne]; [|auto].
      exfalso. apply Hnotin. apply (list_elem_of_fmap_2 fst) in Hin. exact Hin.
Qed.

Lemma Map_set_keys k v m :
  (Map_set k v m).*1 =
    match Map_get k m with Some _ => m.*1 | None => m.*1 ++ [k] end.
Proof.
  induction m as [|[k' v'] m IH]; cbn [Map_set Map_get]; [reflexivity|].
  destruct (decide (k' = k)) as [->|Hne]; rewrite !fmap_cons; [reflexivity|].
  rewrite IH. destruct (Map_get k m); reflexivity.
Qed.

Lemma Map_set_NoDup k v m : NoDup m.*1 -> NoDup (Map_set k v m).*1.
Proof.
  intros Hnd. rewrite Map_set_keys.
  destruct (Map_get k m) eqn:Hget; [exact Hnd|].
  apply NoDup_app. split; [exact Hnd|]. split.
  - intros x Hx Hk. apply list_elem_of_singleton in Hk as ->.
    apply Map_get_None in Hget. contradiction.
  - apply NoDup_singleton.
Qed.
End MapFacts.

(** ** Folding the level columns into the Map *)

Section ReducerFacts.
Variable getLogLevelFromKey : string -> LogLevel.t.
Variable LogLevelColor : LogLevel.t -> string.
Variable MISSING_VALUE : JsVal.
Variable timeField : Field.
Variable oneLevelDetected : bool.

Local Abbreviation n := (length (values timeField)).
Local Abbreviation newEntry lvl :=
  (newLevelEntry LogLevelColor MISSING_VALUE lvl oneLevelDetected n).
Local Abbreviation foldField1 :=
  (foldField getLogLevelFromKey LogLevelColor MISSING_VALUE timeField
     oneLevelDetected n).
Local Abbreviation forEach :=
  (forEachField getLogLevelFromKey LogLevelColor MISSING_VALUE timeField
     oneLevelDetected n).
Local Abbreviation entry :=
  (entryOr LogLevelColor MISSING_VALUE timeField oneLevelDetected).
Local Abbreviation wellSized := (allSized timeField).

Lemma newEntry_sized lvl : sized n (newEntry lvl).
Proof. split; simpl; apply length_replicate. Qed.

Lemma entryOr_sized lvl m : wellSized m -> sized n (entry lvl m).
Proof.
  intros Hm. unfold entryOr. destruct (Map_get lvl m) eqn:Hget; simpl.
  - eapply Hm, Hget.
  - apply newEntry_sized.
Qed.

Lemma foldField_spec m field :
  wellSized m ->
  let lvl := getLogLevelFromKey (name field) in
  let df := entry lvl m in
  exists df',
    foldField1 m field = Some (Map_set lvl df' m) /\
    sized n df' /\
    config (frame df') = config (frame df) /\
    (forall i, (i < n)%nat ->
       Value (frame df') !! i =
         Some (totalValue (vector_get (Value (frame df)) i)
                          (vector_get (values field) i)) /\
       Time (frame df') !! i = Some (vector_get (values timeField) i)) /\
    (hasNonZeroValues df' = true <->
       hasNonZeroValues df = true \/
       exists i, (i < n)%nat /\
         gt_zero (totalValue (vector_get (Value (frame df)) i)
                             (vector_get (values field) i)) = true).
Proof.
  intros Hm lvl df.
  destruct (sumLoop_spec timeField field n n 0%nat df
              (entryOr_sized lvl m Hm) eq_refl)
    as (df' & Hrun & Hs & Hc & _ & _ & Hhigh & Hflag).
  exists df'. split.
  - unfold foldField. fold lvl.
    replace (match Map_get lvl m with
             | Some d => d
             | None => newEntry lvl
             end) with df by (unfold df, entryOr; destruct (Map_get lvl m); reflexivity).
    rewrite Hrun. reflexivity.
  - split; [exact Hs|]. split; [exact Hc|]. split.
    + intros i Hi. apply Hhigh. lia.
    + rewrite Hflag. split; (intros [H | (i & Hi & H)]; [left; exact H|]);
        right; exists i; (split; [lia | exact H]).
Qed.

Lemma allSized_set lvl df m : wellSized m -> sized n df -> wellSized (Map_set lvl df m).
Proof.
  intros Hm Hdf k e. destruct (decide (lvl = k)) as [->|Hne].
  - rewrite Map_get_set_eq. intros [= <-]. exact Hdf.
  - rewrite Map_get_set_ne by exact Hne. apply Hm.
Qed.

(** An invariant of the entries that holds of a fresh entry and that
    the summing loop keeps holds of every entry when [forEach] is
    over, and [forEach] does not throw. *)
Lemma forEachField_invariant (P : LogLevel.t -> LevelEntry -> Prop)
    (levelFields : list Field) :
  (forall lvl, P lvl (newEntry lvl)) ->
  (forall field df df',
     field ∈ levelFields -> sized n df ->
     P (getLogLevelFromKey (name field)) df ->
     sumLoop timeField field 0 n df = Some df' ->
     P (getLogLevelFromKey (name field)) df') ->
  forall m,
    wellSized m -> NoDup m.*1 ->
    (forall k e, Map_get k m = Some e -> P k e) ->
    exists m',
      forEach levelFields m = Some m' /\ wellSized m' /\ NoDup m'.*1 /\
      (forall k e, Map_get k m' = Some e -> P k e).
Proof.
  intros Hnew. induction levelFields as [|field rest IH]; intros Hstep m Hm Hnd HP.
  - exists m. simpl. auto.
  - cbn [forEachField].
    destruct (foldField_spec m field Hm) as (df' & Hfold & Hs & _).
    pose proof Hfold as Hfold'.
    unfold foldField in Hfold'.
    set (lvl := getLogLevelFromKey (name field)) in *.
    destruct (sumLoop timeField field 0 n _) as [df1|] eqn:Hrun in Hfold';
      [|discriminate].
    simpl in Hfold'. injection Hfold' as Hfold'.
    assert (Hdf : df1 = df').
    { pose proof (f_equal (Map_get lvl) Hfold') as Heq.
      rewrite !Map_get_set_eq in Heq. congruence. }
    subst df1.
    rewrite Hfold. simpl.
    apply IH.
    + intros f df df2 Hin. apply Hstep. right. exact Hin.
    + apply allSized_set; assumption.
    + apply Map_set_NoDup. exact Hnd.
    + intros k e. destruct (decide (lvl = k)) as [<-|Hne].
      * rewrite Map_get_set_eq. intros [= <-].
        eapply (Hstep field _ df'); [left | | | exact Hrun].
        -- destruct (Map_get lvl m) eqn:Hget; [eapply Hm, Hget | apply newEntry_sized].
        -- destruct (Map_get lvl m) eqn:Hget; [apply HP, Hget | apply Hnew].
      * rewrite Map_get_set_ne by exact Hne. apply HP.
Qed.
End ReducerFacts.

(** ** What the reducer emits *)

Lemma filter_ext_elem {A} (P Q : A -> Prop) `{!forall x, Decision (P x)}
    `{!forall x, Decision (Q x)} (l : list A) :
  (forall x, x ∈ l -> (P x <-> Q x)) -> filter P l = filter Q l.
Proof.
  induction l as [|x l IH]; intros Hext; [reflexivity|].
  rewrite !filter_cons.
  rewrite IH by (intros y Hy; apply Hext; right; exact Hy).
  destruct (decide (P x)) as [HP|HP], (decide (Q x)) as [HQ|HQ];
    try reflexivity; exfalso.
  - apply HQ, (Hext x); [left | exact HP].
  - apply HP, (Hext x); [left | exact HQ].
Qed.

Lemma nonZeroFrames_filter m :
  nonZeroFrames m =
    frame <$> filter (fun e => hasNonZeroValues e = true) (Map_values m).
Proof.
  unfold nonZeroFrames.
  enough (H : forall l acc,
            foldl (fun acc e => if hasNonZeroValues e then acc ++ [frame e] else acc) acc l
            = acc ++ (frame <$> filter (fun e => hasNonZeroValues e = true) l))
    by (rewrite H; reflexivity).
  induction l as [|e l IH]; intros acc; simpl.
  - rewrite app_nil_r. reflexivity.
  - rewrite IH, filter_cons. destruct (hasNonZeroValues e) eqn:He.
    + rewrite decide_True by reflexivity. rewrite fmap_cons, <- app_assoc. reflexivity.
    + rewrite decide_False by discriminate. reflexivity.
Qed.

Lemma isCount_vector_get l i : Forall isCount l -> isCount (vector_get l i).
Proof.
  intros H. unfold vector_get. destruct (l !! i) eqn:Hl; simpl; [|exact I].
  eapply Forall_lookup_1; eassumption.
Qed.

Lemma isCount_totalValue a b : isCount a -> isCount b -> isCount (totalValue a b).
Proof. destruct a, b; simpl; intros; try exact I; lia. Qed.

Lemma positive_totalValue a b : positive a -> isCount b -> positive (totalValue a b).
Proof.
  intros (z & -> & Hz) Hb. exists (z + or_zero b). split; [reflexivity|].
  destruct b; simpl in *; lia.
Qed.

Section ReducerClaims.
Variable getLogLevelFromKey : string -> LogLevel.t.
Variable LogLevelColor : LogLevel.t -> string.
Variable MISSING_VALUE : JsVal.

Local Abbreviation aggregate :=
  (aggregateRawLogsVolume getLogLevelFromKey LogLevelColor MISSING_VALUE).
Local Abbreviation levels :=
  (logLevelToDataFrame getLogLevelFromKey LogLevelColor MISSING_VALUE).

Lemma aggregate_single raw :
  aggregate [raw] =
    match timeFieldOf raw with
    | None => Some []
    | Some timeField =>
        m ← levels timeField (levelFieldsOf raw); Some (nonZeroFrames m)
    end.
Proof. reflexivity. Qed.

Lemma timeFieldOf_None raw :
  timeFieldOf raw = None <-> forall f, f ∈ fields raw -> name f <> TIME_FIELD_ALIAS.
Proof.
  unfold timeFieldOf, partitionFields. simpl. rewrite head_None. split.
  - intros Hnil f Hin Hname.
    eapply (filter_nil_not_elem_of _ _ f Hnil); [|exact Hin].
    unfold isTimeField. apply String.eqb_eq. exact Hname.
  - intros Hno. induction (fields raw) as [|f l IH]; [reflexivity|].
    rewrite filter_cons_False.
    + apply IH. intros g Hg. apply Hno. right. exact Hg.
    + unfold isTimeField. rewrite String.eqb_eq. apply Hno. left.
Qed.

(** The Map the reducer builds exists for every frame: the summing
    loop never writes past the end of an accumulated frame. *)
Lemma logLevelToDataFrame_total timeField levelFields :
  exists m, levels timeField levelFields = Some m /\
            allSized timeField m /\ NoDup m.*1.
Proof.
  destruct (forEachField_invariant getLogLevelFromKey LogLevelColor
              MISSING_VALUE timeField (oneLevel levelFields)
              (fun _ _ => True) levelFields
              (fun _ => I) (fun _ _ _ _ _ _ _ => I) [])
    as (m & Hm & Hs & Hnd & _).
  - intros k e. discriminate.
  - constructor.
  - intros; exact I.
  - exists m. auto.
Qed.

Lemma aggregateRawLogsVolume_total rawLogsVolume :
  is_Some (aggregate rawLogsVolume).
Proof.
  destruct rawLogsVolume as [|raw [|raw' rest]]; [eexists; reflexivity| |eexists; reflexivity].
  rewrite aggregate_single. destruct (timeFieldOf raw) as [tf|]; [|eexists; reflexivity].
  destruct (logLevelToDataFrame_total tf (levelFieldsOf raw)) as (m & -> & _).
  eexists; reflexivity.
Qed.

(** C3. The reducer returns the empty list, and throws nothing, when
    it is not given exactly one raw frame, and when the single frame
    has no field named 'time'. *)
Theorem aggregate_fails_soft rawLogsVolume :
  (length rawLogsVolume <> 1%nat \/
   exists raw, rawLogsVolume = [raw] /\
     forall f, f ∈ fields raw -> name f <> TIME_FIELD_ALIAS) ->
  aggregate rawLogsVolume = Some [].
Proof.
  intros [Hlen | (raw & -> & Hno)].
  - destruct rawLogsVolume as [|raw [|raw' rest]]; simpl in Hlen;
      [reflexivity | congruence | reflexivity].
  - rewrite aggregate_single.
    apply timeFieldOf_None in Hno. rewrite Hno. reflexivity.
Qed.
End ReducerClaims.

Lemma aggregate_fails_soft_witness :
  aggregateRawLogsVolume classify plainColor VUndefined [] = Some [] /\
  aggregateRawLogsVolume classify plainColor VUndefined [warnFrame; warnFrame] = Some [] /\
  aggregateRawLogsVolume classify plainColor VUndefined [noTimeFrame] = Some [].
Proof.
  split; [|split].
  - apply (aggregate_fails_soft classify plainColor VUndefined []).
    left. simpl. lia.
  - apply (aggregate_fails_soft classify plainColor VUndefined [warnFrame; warnFrame]).
    left. simpl. lia.
  - apply (aggregate_fails_soft classify plainColor VUndefined [noTimeFrame]).
    right. exists noTimeFrame. split; [reflexivity|].
    intros f Hf. apply list_elem_of_singleton in Hf as ->. discriminate.
Defined.

Lemma Exists_positive_lookup l :
  Exists positive l <-> exists i v, l !! i = Some v /\ positive v.
Proof.
  rewrite Exists_exists. split.
  - intros (v & Hin & Hp). apply list_elem_of_lookup in Hin as [i Hi]. eauto.
  - intros (i & v & Hi & Hp). exists v. split; [|exact Hp].
    eapply list_elem_of_lookup_2, Hi.
Qed.

(** Over count columns the flag of an entry tells whether its series has
    a positive row, and the summing loop keeps it so. *)
Lemma sumLoop_counts timeField field df df' :
  let n := length (values timeField) in
  sized n df ->
  Forall isCount (values field) ->
  Forall isCount (Value (frame df)) ->
  (hasNonZeroValues df = true <-> Exists positive (Value (frame df))) ->
  sumLoop timeField field 0 n df = Some df' ->
  Forall isCount (Value (frame df')) /\
  (hasNonZeroValues df' = true <-> Exists positive (Value (frame df'))).
Proof.
  intros n Hs Hfield Hcounts Hflag Hrun.
  destruct (sumLoop_spec timeField field n n 0%nat df Hs eq_refl)
    as (df2 & Hrun2 & [_ Hlen] & _ & _ & _ & Hhigh & Hflag2).
  fold n in Hrun2. rewrite Hrun in Hrun2. injection Hrun2 as <-.
  assert (Hcell : forall i v, Value (frame df') !! i = Some v ->
            (i < n)%nat /\
            v = totalValue (vector_get (Value (frame df)) i)
                           (vector_get (values field) i)).
  { intros i v Hi. pose proof (lookup_lt_Some _ _ _ Hi) as Hlt.
    rewrite Hlen in Hlt. split; [exact Hlt|].
    destruct (Hhigh i ltac:(lia)) as [Hv _]. congruence. }
  split.
  - apply Forall_lookup_2. intros i v Hi.
    destruct (Hcell i v Hi) as [_ ->].
    apply isCount_totalValue; apply isCount_vector_get; assumption.
  - rewrite Hflag2, Hflag, !Exists_positive_lookup. split.
    + intros [(i & v & Hi & Hp) | (i & Hi & Hgt)].
      * pose proof (lookup_lt_Some _ _ _ Hi) as Hlt.
        destruct Hs as [_ Hlen0]. rewrite Hlen0 in Hlt.
        destruct (Hhigh i ltac:(lia)) as [Hv _].
        exists i, (totalValue (vector_get (Value (frame df)) i)
                     (vector_get (values field) i)).
        split; [exact Hv|].
        apply positive_totalValue.
        -- rewrite (vector_get_lookup _ _ _ Hi). exact Hp.
        -- apply isCount_vector_get. exact Hfield.
      * destruct (Hhigh i ltac:(lia)) as [Hv _].
        eexists i, _. split; [exact Hv|]. apply gt_zero_spec. exact Hgt.
    + intros (i & v & Hi & Hp). right.
      destruct (Hcell i v Hi) as [Hlt ->].
      exists i. split; [lia|]. apply gt_zero_spec. exact Hp.
Qed.

Section PositiveLevels.
Variable getLogLevelFromKey : string -> LogLevel.t.
Variable LogLevelColor : LogLevel.t -> string.
Variable MISSING_VALUE : JsVal.

(** C1, for count columns. When no cell of a level column is a
    negative number, the single-frame output of the reducer is the list
    of the accumulated frames of exactly those levels whose fully
    folded series has a row holding a positive number, in the order of
    the Map; a level whose folded series is null or zero throughout is
    not in it. *)
Theorem positive_levels_emitted raw timeField :
  absent MISSING_VALUE ->
  timeFieldOf raw = Some timeField ->
  Forall (fun f => Forall isCount (values f)) (levelFieldsOf raw) ->
  exists m out,
    logLevelToDataFrame getLogLevelFromKey LogLevelColor MISSING_VALUE timeField
      (levelFieldsOf raw) = Some m /\
    aggregateRawLogsVolume getLogLevelFromKey LogLevelColor MISSING_VALUE
      [raw] = Some out /\
    emitsPositiveLevels m out.
Proof.
  intros Hmiss Htf Hcounts.
  destruct (forEachField_invariant getLogLevelFromKey LogLevelColor
              MISSING_VALUE timeField (oneLevel (levelFieldsOf raw))
              (fun _ e => Forall isCount (Value (frame e)) /\
                 (hasNonZeroValues e = true <-> Exists positive (Value (frame e))))
              (levelFieldsOf raw))
    with (m := @nil (LogLevel.t * LevelEntry))
    as (m & Hm & Hs & Hnd & HP).
  - intros lvl. simpl. split.
    + apply Forall_replicate. destruct Hmiss as [-> | ->]; exact I.
    + split; [discriminate|]. intros Hex. apply Exists_exists in Hex as (v & Hin & Hp).
      apply elem_of_replicate_inv in Hin as ->.
      destruct Hp as (z & Hz & _), Hmiss as [-> | ->]; discriminate.
  - intros field df df' Hin Hsized [Hc Hf] Hrun.
    eapply sumLoop_counts; eauto.
    eapply Forall_forall in Hcounts; eauto.
  - intros k e. discriminate.
  - constructor.
  - intros k e. discriminate.
  - exists m, (nonZeroFrames m). split; [exact Hm|]. split.
    + rewrite aggregate_single, Htf. unfold logLevelToDataFrame in Hm |- *.
      rewrite Hm. reflexivity.
    + unfold emitsPositiveLevels. rewrite nonZeroFrames_filter. f_equal.
      apply filter_ext_elem. intros e He.
      unfold Map_values in He. apply list_elem_of_fmap in He as ([k e'] & -> & Hin).
      apply (elem_of_Map_get _ _ _ Hnd) in Hin. apply (HP k e' Hin).
Qed.
End PositiveLevels.

Lemma positive_levels_emitted_witness :
  exists m out,
    logLevelToDataFrame classify plainColor VUndefined (mkField "time" (nums [0; 60000]))
      (levelFieldsOf mixedFrame) = Some m /\
    aggregateRawLogsVolume classify plainColor VUndefined [mixedFrame] = Some out /\
    emitsPositiveLevels m out.
Proof.
  apply (positive_levels_emitted classify plainColor VUndefined mixedFrame
           (mkField "time" (nums [0; 60000]))).
  - right. reflexivity.
  - reflexivity.
  - repeat constructor; simpl; lia.
Defined.

(** C1 as stated fails when a cell is negative: the partial sum 1 sets the
    flag, the folded series of 'warning' is the single zero, and the level
    is emitted all the same. *)
Lemma cancelling_columns_counterexample :
  exists m out,
    logLevelToDataFrame classify plainColor VUndefined (mkField "time" (nums [0]))
      (levelFieldsOf cancellingFrame) = Some m /\
    aggregateRawLogsVolume classify plainColor VUndefined [cancellingFrame] = Some out /\
    (Value <$> out) = [[VNum 0]] /\
    ~ emitsPositiveLevels m out.
Proof.
  eexists _, _. split; [vm_compute; reflexivity|].
  split; [vm_compute; reflexivity|].
  split; [reflexivity|].
  unfold emitsPositiveLevels. vm_compute. discriminate.
Qed.

(** C2. The summing loop folds a column into an accumulated frame row by
    row: where the accumulated cell and the incoming cell are both null
    the new cell is null; otherwise a null counts as 0 and the new cell
    is the sum, so that a number and a null give the number and two
    numbers give their sum. *)
Theorem sumLoop_pointwise timeField field df :
  sized (length (values timeField)) df ->
  exists df',
    sumLoop timeField field 0 (length (values timeField)) df = Some df' /\
    forall i, (i < length (values timeField))%nat ->
      exists total,
        Value (frame df') !! i = Some total /\
        let currentValue := vector_get (Value (frame df)) i in
        let valueToAdd := vector_get (values field) i in
        (currentValue = VNull -> valueToAdd = VNull -> total = VNull) /\
        (~ (currentValue = VNull /\ valueToAdd = VNull) ->
           total = VNum (or_zero currentValue + or_zero valueToAdd)) /\
        (forall x, currentValue = VNum x -> valueToAdd = VNull -> total = VNum x) /\
        (forall y, currentValue = VNull -> valueToAdd = VNum y -> total = VNum y) /\
        (forall x y, currentValue = VNum x -> valueToAdd = VNum y ->
           total = VNum (x + y)).
Proof.
  intros Hs.
  destruct (sumLoop_spec timeField field _ _ 0%nat df Hs eq_refl)
    as (df' & Hrun & _ & _ & _ & _ & Hhigh & _).
  exists df'. split; [exact Hrun|]. intros i Hi.
  destruct (Hhigh i ltac:(lia)) as [Hv _].
  eexists. split; [exact Hv|]. cbv zeta.
  destruct (vector_get (Value (frame df)) i) as [| |x],
           (vector_get (values field) i) as [| |y]; unfold totalValue; simpl;
    repeat split; intros; simplify_eq; try reflexivity;
    try (exfalso; tauto); try (f_equal; lia).
Qed.

Lemma sumLoop_pointwise_witness :
  exists df',
    sumLoop (mkField "time" (nums [0; 1; 2; 3]))
      (mkField "warn" [VNull; VNull; VNum 5; VNum 7]) 0 4
      {| frame := {| Time := nums [0; 1; 2; 3];
                     Value := [VNull; VNum 2; VNull; VNum 4];
                     config := mkFieldConfig "warning" "warning";
                     meta := None |};
         hasNonZeroValues := true |} = Some df' /\
    Value (frame df') = [VNull; VNum 2; VNum 5; VNum 11].
Proof.
  destruct (sumLoop_pointwise (mkField "time" (nums [0; 1; 2; 3]))
              (mkField "warn" [VNull; VNull; VNum 5; VNum 7])
              {| frame := {| Time := nums [0; 1; 2; 3];
                             Value := [VNull; VNum 2; VNull; VNum 4];
                             config := mkFieldConfig "warning" "warning";
                             meta := None |};
                 hasNonZeroValues := true |})
    as (df' & Hrun & _).
  - split; reflexivity.
  - exists df'. split; [exact Hrun|].
    vm_compute in Hrun. injection Hrun as <-. reflexivity.
Defined.

(** ** The folded series of a level *)


Section FoldedSeries.
Variable getLogLevelFromKey : string -> LogLevel.t.
Variable LogLevelColor : LogLevel.t -> string.
Variable MISSING_VALUE : JsVal.
Variable timeField : Field.
Variable oneLevelDetected : bool.

Local Abbreviation n := (length (values timeField)).
Local Abbreviation forEach :=
  (forEachField getLogLevelFromKey LogLevelColor MISSING_VALUE timeField
     oneLevelDetected n).
Local Abbreviation entry :=
  (entryOr LogLevelColor MISSING_VALUE timeField oneLevelDetected).

Lemma entryOr_set_eq lvl df m : entry lvl (Map_set lvl df m) = df.
Proof. unfold entryOr. rewrite Map_get_set_eq. reflexivity. Qed.

Lemma entryOr_set_ne k lvl df m : k <> lvl -> entry lvl (Map_set k df m) = entry lvl m.
Proof. intros H. unfold entryOr. rewrite Map_get_set_ne by exact H. reflexivity. Qed.

(** Row [i] of a level after [forEach] is the left fold of
    [totalValue] over the cells of its columns, from what the row held
    before; a level is in the Map when it was there before or has a
    column. *)
Lemma forEachField_values levelFields : forall m m',
  allSized timeField m ->
  forEach levelFields m = Some m' ->
  allSized timeField m' /\
  (forall lvl,
     Map_get lvl m' = None <->
     Map_get lvl m = None /\
     filter (fun f => getLogLevelFromKey (name f) = lvl) levelFields = []) /\
  (forall lvl i, (i < n)%nat ->
     vector_get (Value (frame (entry lvl m'))) i =
       foldl totalValue (vector_get (Value (frame (entry lvl m))) i)
         (columnCells getLogLevelFromKey lvl levelFields i)).
Proof.
  induction levelFields as [|field rest IH]; intros m m' Hm Hrun.
  - simpl in Hrun. injection Hrun as <-. split; [exact Hm|]. split.
    + intros lvl. rewrite filter_nil. tauto.
    + intros lvl i Hi. reflexivity.
  - cbn [forEachField] in Hrun.
    destruct (foldField_spec getLogLevelFromKey LogLevelColor MISSING_VALUE
                timeField oneLevelDetected m field Hm)
      as (df' & Hfold & Hs & _ & Hcells & _).
    cbv zeta in Hfold, Hcells.
    set (l0 := getLogLevelFromKey (name field)) in *.
    rewrite Hfold in Hrun. simpl in Hrun.
    destruct (IH _ _ (allSized_set timeField l0 df' m Hm Hs) Hrun)
      as (Hm' & Hkeys & Hvals).
    split; [exact Hm'|]. split.
    + intros lvl. rewrite Hkeys, filter_cons. fold l0.
      destruct (decide (l0 = lvl)) as [->|Hne].
      * rewrite Map_get_set_eq. split; [intros [? _]; discriminate|].
        intros [_ ?]; discriminate.
      * rewrite Map_get_set_ne by exact Hne. tauto.
    + intros lvl i Hi. rewrite (Hvals lvl i Hi). unfold columnCells.
      rewrite filter_cons. fold l0.
      destruct (decide (l0 = lvl)) as [->|Hne].
      * rewrite entryOr_set_eq, fmap_cons. simpl.
        destruct (Hcells i Hi) as [Hv _].
        rewrite (vector_get_lookup _ _ _ Hv). reflexivity.
      * rewrite entryOr_set_ne by exact Hne. reflexivity.
Qed.
End FoldedSeries.

Section OrderOfColumns.
Variable getLogLevelFromKey : string -> LogLevel.t.
Variable LogLevelColor : LogLevel.t -> string.
Variable MISSING_VALUE : JsVal.

Local Abbreviation levels :=
  (logLevelToDataFrame getLogLevelFromKey LogLevelColor MISSING_VALUE).

Lemma logLevelToDataFrame_sized timeField levelFields m :
  levels timeField levelFields = Some m -> allSized timeField m.
Proof.
  intros Hm. unfold logLevelToDataFrame in Hm.
  destruct (forEachField_values getLogLevelFromKey LogLevelColor MISSING_VALUE
              timeField (oneLevel levelFields) levelFields [] m)
    as (Hs & _); [intros k e'; discriminate | exact Hm | exact Hs].
Qed.

Lemma logLevelToDataFrame_row timeField levelFields m lvl e i :
  levels timeField levelFields = Some m ->
  Map_get lvl m = Some e ->
  (i < length (values timeField))%nat ->
  Value (frame e) !! i =
    Some (foldl totalValue MISSING_VALUE
            (columnCells getLogLevelFromKey lvl levelFields i)).
Proof.
  intros Hm Hget Hi.
  destruct (logLevelToDataFrame_sized _ _ _ Hm lvl e Hget) as [_ Hlen].
  unfold logLevelToDataFrame in Hm.
  destruct (forEachField_values getLogLevelFromKey LogLevelColor MISSING_VALUE
              timeField (oneLevel levelFields) levelFields [] m)
    as (_ & _ & Hvals); [intros k e'; discriminate | exact Hm |].
  specialize (Hvals lvl i Hi). unfold entryOr in Hvals at 1 2.
  rewrite Hget in Hvals. simpl in Hvals.
  rewrite vector_get_replicate in Hvals by exact Hi.
  rewrite <- Hvals. unfold vector_get.
  destruct (lookup_lt_is_Some_2 (Value (frame e)) i ltac:(lia)) as [v ->].
  reflexivity.
Qed.

Lemma logLevelToDataFrame_keys timeField levelFields m lvl :
  levels timeField levelFields = Some m ->
  Map_get lvl m = None <->
  filter (fun f => getLogLevelFromKey (name f) = lvl) levelFields = [].
Proof.
  intros Hm. unfold logLevelToDataFrame in Hm.
  destruct (forEachField_values getLogLevelFromKey LogLevelColor MISSING_VALUE
              timeField (oneLevel levelFields) levelFields [] m)
    as (_ & Hkeys & _); [intros k e'; discriminate | exact Hm |].
  rewrite Hkeys. simpl. tauto.
Qed.

End OrderOfColumns.

(** ** Display names *)

Section DisplayNames.
Variable getLogLevelFromKey : string -> LogLevel.t.
Variable LogLevelColor : LogLevel.t -> string.
Variable MISSING_VALUE : JsVal.

Local Abbreviation levels :=
  (logLevelToDataFrame getLogLevelFromKey LogLevelColor MISSING_VALUE).

Lemma logLevelToDataFrame_config timeField levelFields m lvl e :
  levels timeField levelFields = Some m ->
  Map_get lvl m = Some e ->
  config (frame e) =
    getLogVolumeFieldConfig LogLevelColor lvl (oneLevel levelFields).
Proof.
  intros Hm Hget.
  destruct (forEachField_invariant getLogLevelFromKey LogLevelColor
              MISSING_VALUE timeField (oneLevel levelFields)
              (fun k d => config (frame d) =
                 getLogVolumeFieldConfig LogLevelColor k (oneLevel levelFields))
              levelFields)
    with (m := @nil (LogLevel.t * LevelEntry))
    as (m' & Hm' & _ & _ & HP).
  - reflexivity.
  - intros field df df' _ Hs Hc Hrun.
    destruct (sumLoop_spec timeField field _ _ 0%nat df Hs eq_refl)
      as (df2 & Hrun2 & _ & Hc2 & _).
    rewrite Hrun in Hrun2. injection Hrun2 as <-. congruence.
  - intros k d. discriminate.
  - constructor.
  - intros k d. discriminate.
  - unfold logLevelToDataFrame in Hm. rewrite Hm in Hm'. injection Hm' as <-.
    apply HP, Hget.
Qed.

(** C8. Every emitted series is the accumulated frame of a level of
    the Map.  When the frame has one level column, named 'logs', and it
    classifies to the unknown level, the display name of the series is
    'logs', not 'unknown'; in every other case the display name of a
    series is the name of its level. *)
Theorem display_name_of_series raw timeField :
  timeFieldOf raw = Some timeField ->
  exists m out,
    levels timeField (levelFieldsOf raw) = Some m /\
    aggregateRawLogsVolume getLogLevelFromKey LogLevelColor MISSING_VALUE
      [raw] = Some out /\
    (forall f, f ∈ out -> exists lvl e, Map_get lvl m = Some e /\ frame e = f) /\
    (forall lvl e, Map_get lvl m = Some e ->
       (genericLogsOnly getLogLevelFromKey (levelFieldsOf raw) ->
          displayNameFromDS (config (frame e)) = "logs" /\
          displayNameFromDS (config (frame e)) <> LogLevel.to_string lvl) /\
       (~ genericLogsOnly getLogLevelFromKey (levelFieldsOf raw) ->
          displayNameFromDS (config (frame e)) = LogLevel.to_string lvl)).
Proof.
  intros Htf.
  destruct (logLevelToDataFrame_total getLogLevelFromKey LogLevelColor MISSING_VALUE
              timeField (levelFieldsOf raw)) as (m & Hm & _ & Hnd).
  exists m, (nonZeroFrames m). split; [exact Hm|]. split.
  { rewrite aggregate_single, Htf, Hm. reflexivity. }
  split.
  { intros f Hf. rewrite nonZeroFrames_filter in Hf.
    apply list_elem_of_fmap in Hf as (e & -> & He).
    apply list_elem_of_filter in He as [_ He].
    unfold Map_values in He. apply list_elem_of_fmap in He as ([k e'] & -> & Hin).
    exists k, e'. split; [|reflexivity]. apply elem_of_Map_get; assumption. }
  intros lvl e Hget.
  rewrite (logLevelToDataFrame_config _ _ _ _ _ Hm Hget). simpl.
  assert (Hcol : filter (fun f => getLogLevelFromKey (name f) = lvl)
                   (levelFieldsOf raw) <> []).
  { intros Hnil.
    apply (logLevelToDataFrame_keys getLogLevelFromKey LogLevelColor MISSING_VALUE
             _ _ _ lvl Hm) in Hnil. congruence. }
  split.
  - intros (field & Hone & Hname & Hlvl).
    rewrite Hone in Hcol |- *. simpl. rewrite Hname. simpl.
    rewrite filter_cons, filter_nil in Hcol.
    destruct (decide (getLogLevelFromKey (name field) = lvl)) as [<-|Hne];
      [|congruence].
    rewrite Hlvl. simpl. split; [reflexivity | discriminate].
  - intros Hnot.
    destruct (oneLevel (levelFieldsOf raw)) eqn:Hone; [|reflexivity].
    destruct (bool_decide (lvl = LogLevel.unknown)) eqn:Hunk; [|reflexivity].
    exfalso. apply Hnot.
    apply bool_decide_eq_true in Hunk. subst lvl.
    unfold oneLevel in Hone.
    destruct (levelFieldsOf raw) as [|field [|]]; try discriminate.
    apply String.eqb_eq in Hone.
    exists field. split; [reflexivity|]. split; [exact Hone|].
    rewrite filter_cons, filter_nil in Hcol.
    destruct (decide (getLogLevelFromKey (name field) = LogLevel.unknown));
      [assumption | congruence].
Qed.
End DisplayNames.

Lemma display_name_of_series_witness :
  exists m out,
    logLevelToDataFrame classify plainColor VUndefined (mkField "time" (nums [0; 60000]))
      (levelFieldsOf logsFrame) = Some m /\
    aggregateRawLogsVolume classify plainColor VUndefined [logsFrame] = Some out /\
    (displayNameFromDS ∘ config <$> out) = ["logs"].
Proof.
  destruct (display_name_of_series classify plainColor VUndefined logsFrame
              (mkField "time" (nums [0; 60000])) eq_refl)
    as (m & out & Hm & Hout & _).
  exists m, out. split; [exact Hm|]. split; [exact Hout|].
  vm_compute in Hout. injection Hout as <-. reflexivity.
Defined.

(** ** Interval resolution *)

(** C6. [getIntervalInfo] follows three rules, the first that applies:
    without an interval in the scoped variables the '$__interval'
    placeholder and no width; with a hint and a span under 5000 ms one
    millisecond whatever the hint; otherwise one day above an hour, one
    hour above a minute, one minute above a second, one second else.  A
    hint of two hours over a span of 10,000,000 ms gives one day. *)
Theorem getIntervalInfo_policy scopedVars timespanMs :
  (__interval scopedVars = None ->
     getIntervalInfo scopedVars timespanMs =
       Some {| interval := "$__interval"; intervalMs := None |}) /\
  (forall iv hint,
     __interval scopedVars = Some iv ->
     __interval_ms scopedVars = Some hint ->
     (timespanMs < 5000 ->
        getIntervalInfo scopedVars timespanMs =
          Some {| interval := "1ms"; intervalMs := Some 1 |}) /\
     (5000 <= timespanMs ->
        (3600000 < value hint ->
           getIntervalInfo scopedVars timespanMs =
             Some {| interval := "1d"; intervalMs := Some 86400000 |}) /\
        (60000 < value hint <= 3600000 ->
           getIntervalInfo scopedVars timespanMs =
             Some {| interval := "1h"; intervalMs := Some 3600000 |}) /\
        (1000 < value hint <= 60000 ->
           getIntervalInfo scopedVars timespanMs =
             Some {| interval := "1m"; intervalMs := Some 60000 |}) /\
        (value hint <= 1000 ->
           getIntervalInfo scopedVars timespanMs =
             Some {| interval := "1s"; intervalMs := Some 1000 |}))) /\
  getIntervalInfo
    {| __interval := Some (mkScopedVar "2h" "2h");
       __interval_ms := Some (mkScopedVar "7200000" 7200000) |} 10000000 =
    Some {| interval := "1d"; intervalMs := Some 86400000 |}.
Proof.
  split; [|split; [|reflexivity]].
  - intros H. unfold getIntervalInfo. rewrite H. reflexivity.
  - intros iv hint Hiv Hms. unfold getIntervalInfo. rewrite Hiv, Hms. simpl.
    change (SECOND * 5) with 5000. change HOUR with 3600000.
    change MINUTE with 60000. change SECOND with 1000.
    change DAY with 86400000. change MILLISECOND with 1.
    split; [intros Hts | intros Hts; repeat split; intros Hh];
      repeat match goal with
             | |- context [?a <? ?b] => destruct (Z.ltb_spec a b); try lia
             end; reflexivity.
Qed.

Lemma getIntervalInfo_policy_witness :
  getIntervalInfo
    {| __interval := Some (mkScopedVar "30s" "30s");
       __interval_ms := Some (mkScopedVar "30000" 30000) |} 3000 =
    Some {| interval := "1ms"; intervalMs := Some 1 |} /\
  getIntervalInfo
    {| __interval := Some (mkScopedVar "30s" "30s");
       __interval_ms := Some (mkScopedVar "30000" 30000) |} 900000 =
    Some {| interval := "1m"; intervalMs := Some 60000 |} /\
  getIntervalInfo {| __interval := None; __interval_ms := None |} 900000 =
    Some {| interval := "$__interval"; intervalMs := None |}.
Proof.
  split; [|split].
  - destruct (getIntervalInfo_policy
                {| __interval := Some (mkScopedVar "30s" "30s");
                   __interval_ms := Some (mkScopedVar "30000" 30000) |} 3000)
      as (_ & Hhint & _).
    destruct (Hhint _ _ eq_refl eq_refl) as [Hshort _].
    apply Hshort. lia.
  - destruct (getIntervalInfo_policy
                {| __interval := Some (mkScopedVar "30s" "30s");
                   __interval_ms := Some (mkScopedVar "30000" 30000) |} 900000)
      as (_ & Hhint & _).
    destruct (Hhint _ _ eq_refl eq_refl) as [_ Hlong].
    destruct (Hlong ltac:(lia)) as (_ & _ & Hminute & _).
    apply Hminute. simpl. lia.
  - destruct (getIntervalInfo_policy
                {| __interval := None; __interval_ms := None |} 900000)
      as (Hnone & _).
    apply Hnone. reflexivity.
Defined.

Lemma roundingClause_unit timeField u u' :
  roundingClause timeField u = roundingClause timeField u' ->
  u +:+ ")" = u' +:+ ")".
Proof.
  unfold roundingClause. intros H.
  repeat apply String.app_inj in H. exact H.
Qed.

(** C7. With an interval hint and a span of at least 5000 ms the two
    functions pick matching granularities at the same thresholds: 1d
    with DAY above an hour, 1h with HOUR above a minute, 1m with MINUTE
    above a second, 1s with SECOND otherwise, and nothing is written to
    the console. *)
Theorem interval_and_rounding_agree scopedVars timespanMs timeField iv hint :
  __interval scopedVars = Some iv ->
  __interval_ms scopedVars = Some hint ->
  5000 <= timespanMs ->
  exists info clause,
    getIntervalInfo scopedVars timespanMs = Some info /\
    getTimeFieldRoundingClause scopedVars timespanMs timeField =
      Some (clause, []) /\
    let column := default "created_at" timeField in
    (interval info = "1d" <-> clause = roundingClause column "DAY") /\
    (interval info = "1h" <-> clause = roundingClause column "HOUR") /\
    (interval info = "1m" <-> clause = roundingClause column "MINUTE") /\
    (interval info = "1s" <-> clause = roundingClause column "SECOND") /\
    (interval info = "1d" <-> 3600000 < value hint) /\
    (interval info = "1h" <-> 60000 < value hint <= 3600000) /\
    (interval info = "1m" <-> 1000 < value hint <= 60000) /\
    (interval info = "1s" <-> value hint <= 1000).
Proof.
  intros Hiv Hms Hts.
  unfold getIntervalInfo, getTimeFieldRoundingClause. rewrite Hiv, Hms. simpl.
  change (SECOND * 5) with 5000. change HOUR with 3600000.
  change MINUTE with 60000. change SECOND with 1000.
  destruct (Z.ltb_spec timespanMs 5000); [lia|].
  destruct (Z.ltb_spec 3600000 (value hint));
    [|destruct (Z.ltb_spec 60000 (value hint));
      [|destruct (Z.ltb_spec 1000 (value hint))]];
    (eexists _, _; split; [reflexivity|]; split; [reflexivity|]);
    cbv zeta; simpl interval;
    repeat match goal with |- _ /\ _ => split end;
    (split; intros Hx); try reflexivity; try lia; try discriminate;
    apply roundingClause_unit in Hx; discriminate.
Qed.

Lemma interval_and_rounding_agree_witness :
  exists info clause,
    getIntervalInfo
      {| __interval := Some (mkScopedVar "2m" "2m");
         __interval_ms := Some (mkScopedVar "120000" 120000) |} 86400000
      = Some info /\
    getTimeFieldRoundingClause
      {| __interval := Some (mkScopedVar "2m" "2m");
         __interval_ms := Some (mkScopedVar "120000" 120000) |} 86400000 None
      = Some (clause, []) /\
    interval info = "1h" /\
    clause = roundingClause "created_at" "HOUR".
Proof.
  destruct (interval_and_rounding_agree
              {| __interval := Some (mkScopedVar "2m" "2m");
                 __interval_ms := Some (mkScopedVar "120000" 120000) |}
              86400000 None (mkScopedVar "2m" "2m") (mkScopedVar "120000" 120000)
              eq_refl eq_refl ltac:(lia))
    as (info & clause & Hinfo & Hclause & _).
  exists info, clause. split; [exact Hinfo|]. split; [exact Hclause|].
  vm_compute in Hinfo, Hclause.
  injection Hinfo as <-. injection Hclause as <-. split; reflexivity.
Defined.

Lemma getIntervalInfo_defined scopedVars timespanMs :
  (is_Some (__interval scopedVars) -> is_Some (__interval_ms scopedVars)) ->
  is_Some (getIntervalInfo scopedVars timespanMs).
Proof.
  intros Hpre. unfold getIntervalInfo.
  destruct (__interval scopedVars) as [iv|]; [|eexists; reflexivity].
  destruct (Hpre ltac:(eexists; reflexivity)) as [ms ->]. simpl.
  repeat match goal with
         | |- context [?a <? ?b] => destruct (Z.ltb_spec a b)
         end; eexists; reflexivity.
Qed.

Lemma getTimeFieldRoundingClause_defined scopedVars timespanMs timeField :
  (is_Some (__interval scopedVars) -> is_Some (__interval_ms scopedVars)) ->
  is_Some (getTimeFieldRoundingClause scopedVars timespanMs timeField).
Proof.
  intros Hpre. unfold getTimeFieldRoundingClause.
  destruct (__interval scopedVars) as [iv|]; [|eexists; reflexivity].
  destruct (Hpre ltac:(eexists; reflexivity)) as [ms ->]. simpl.
  repeat match goal with
         | |- context [?a <? ?b] => destruct (Z.ltb_spec a b)
         end; eexists; reflexivity.
Qed.

Lemma interval_ms_missing scopedVars timespanMs timeField :
  is_Some (__interval scopedVars) -> __interval_ms scopedVars = None ->
  getIntervalInfo scopedVars timespanMs = None /\
  getTimeFieldRoundingClause scopedVars timespanMs timeField = None.
Proof.
  intros [iv Hiv] Hms. unfold getIntervalInfo, getTimeFieldRoundingClause.
  rewrite Hiv, Hms. split; reflexivity.
Qed.

(** C10. Once [__interval] is set, both functions read
    [__interval_ms.value] before anything else: each returns a result
    exactly when [__interval_ms] is there whenever [__interval] is, and
    throws otherwise, whatever the span. *)
Theorem interval_ms_required scopedVars timespanMs timeField :
  (is_Some (getIntervalInfo scopedVars timespanMs) <->
     (is_Some (__interval scopedVars) -> is_Some (__interval_ms scopedVars))) /\
  (is_Some (getTimeFieldRoundingClause scopedVars timespanMs timeField) <->
     (is_Some (__interval scopedVars) -> is_Some (__interval_ms scopedVars))) /\
  (is_Some (__interval scopedVars) -> __interval_ms scopedVars = None ->
     getIntervalInfo scopedVars timespanMs = None /\
     getTimeFieldRoundingClause scopedVars timespanMs timeField = None).
Proof.
  split; [|split].
  - split; [|apply getIntervalInfo_defined].
    intros Hdef Hiv. destruct (__interval_ms scopedVars) as [ms|] eqn:Hms;
      [eexists; reflexivity|].
    destruct (interval_ms_missing scopedVars timespanMs timeField Hiv Hms) as [Hnone _].
    rewrite Hnone in Hdef. destruct Hdef as [? ?]; discriminate.
  - split; [|apply getTimeFieldRoundingClause_defined].
    intros Hdef Hiv. destruct (__interval_ms scopedVars) as [ms|] eqn:Hms;
      [eexists; reflexivity|].
    destruct (interval_ms_missing scopedVars timespanMs timeField Hiv Hms) as [_ Hnone].
    rewrite Hnone in Hdef. destruct Hdef as [? ?]; discriminate.
  - apply interval_ms_missing.
Qed.

Lemma interval_ms_required_witness :
  getIntervalInfo
    {| __interval := Some (mkScopedVar "1m" "1m"); __interval_ms := None |} 3000
    = None /\
  getTimeFieldRoundingClause
    {| __interval := Some (mkScopedVar "1m" "1m"); __interval_ms := None |} 3000
    None = None.
Proof.
  apply (interval_ms_required
           {| __interval := Some (mkScopedVar "1m" "1m"); __interval_ms := None |}
           3000 None).
  - eexists; reflexivity.
  - reflexivity.
Defined.

(** ** The pipeline *)

Section PipelineFacts.
Variable getLogLevelFromKey : string -> LogLevel.t.
Variable LogLevelColor : LogLevel.t -> string.
Variable MISSING_VALUE : JsVal.
Variable RawData : Type.
Variable toDataFrame : RawData -> DataFrame.
Variable options : LogsVolumeQueryOptions.

Local Abbreviation deliver1 :=
  (deliver getLogLevelFromKey LogLevelColor MISSING_VALUE RawData toDataFrame
     options).
Local Abbreviation react1 :=
  (react getLogLevelFromKey LogLevelColor MISSING_VALUE RawData toDataFrame
     options).
Local Abbreviation subscribe1 :=
  (subscribe getLogLevelFromKey LogLevelColor MISSING_VALUE RawData
     toDataFrame options).
Local Abbreviation run :=
  (queryLogsVolume getLogLevelFromKey LogLevelColor MISSING_VALUE RawData
     toDataFrame options).

Ltac unfold_pipeline :=
  unfold deliver, react, on_next, on_error, on_complete,
    observer_unsubscribe, observer_error, observer_complete, observer_next,
    observer_close, subscription_unsubscribe, addTeardown, emit in *.

Ltac crush s :=
  destruct s as [raw [|] em [|] [|] q]; unfold_pipeline; simpl in *;
  repeat match goal with
         | |- context [aggregateRawLogsVolume ?a ?b ?c ?d] =>
             destruct (aggregateRawLogsVolume a b c d)
         | |- context [error ?r] => destruct (error r) eqn:?
         end; simpl in *.

(** What one signal does to a subscription. *)
Lemma deliver_cases s sig :
  teardownAdded (deliver1 s sig) = teardownAdded s /\
  queriesIssued (deliver1 s sig) = queriesIssued s /\
  (subscriptionClosed s = true -> deliver1 s sig = s) /\
  ((emitted (deliver1 s sig) = emitted s /\
    observerStopped (deliver1 s sig) = observerStopped s /\
    (subscriptionClosed s = true -> subscriptionClosed (deliver1 s sig) = true)) \/
   (observerStopped s = false /\ subscriptionClosed s = false /\
    observerStopped (deliver1 s sig) = true /\
    (teardownAdded s = true -> subscriptionClosed (deliver1 s sig) = true) /\
    ((sig = UpComplete /\
      exists d, emitted (deliver1 s sig) =
                  emitted s ++ [NextN (doneState d); CompleteN]) \/
     (exists e, carriesError sig e /\
        emitted (deliver1 s sig) =
          emitted s ++ [NextN (errorState e); ErrorN e])))).
Proof.
  destruct sig as [r|e|]; crush s;
    (split; [reflexivity|]); (split; [reflexivity|]);
    (split; [intros; first [reflexivity | discriminate]|]);
    first
      [ left; split; [reflexivity|]; split; [reflexivity|];
        intros; first [assumption | reflexivity]
      | right; (split; [reflexivity|]); (split; [reflexivity|]);
        (split; [reflexivity|]);
        (split; [intros; first [reflexivity | discriminate]|]);
        first
          [ left; split; [reflexivity|]; eexists;
            rewrite <- app_assoc; reflexivity
          | right; eexists; split;
            [first [left; reflexivity | right; eauto]|];
            rewrite <- app_assoc; reflexivity ] ].
Qed.

Lemma react_quiet s ev :
  observerStopped s = true -> subscriptionClosed s = true -> react1 s ev = s.
Proof.
  intros Hs Hc. destruct ev as [sig|]; simpl.
  - apply deliver_cases. exact Hc.
  - unfold observer_unsubscribe. rewrite Hs. reflexivity.
Qed.

Lemma foldl_react_quiet evs : forall s,
  observerStopped s = true -> subscriptionClosed s = true ->
  foldl react1 s evs = s.
Proof.
  induction evs as [|ev evs IH]; intros s Hs Hc; simpl; [reflexivity|].
  rewrite react_quiet by assumption. apply IH; assumption.
Qed.

Lemma lifecycle_deliver s sig : lifecycle s -> lifecycle (deliver1 s sig).
Proof.
  intros Hl.
  destruct (deliver_cases s sig) as (_ & _ & _ & [(He & Hs & _) | Hend]).
  - unfold lifecycle. rewrite He, Hs. exact Hl.
  - destruct Hend as (Hlive & _ & Hs & _ & Hnew).
    destruct Hl as [[_ Hem] | [Hstop _]]; [|congruence].
    right. split; [exact Hs|]. right. rewrite Hem in Hnew.
    destruct Hnew as [(_ & d & ->) | (e & _ & ->)]; [left | right]; eauto.
Qed.

Lemma lifecycle_stop s s' :
  lifecycle s -> emitted s' = emitted s -> observerStopped s' = true ->
  lifecycle s'.
Proof.
  intros Hl He Hs. right. split; [exact Hs|]. rewrite He.
  destruct Hl as [[_ Hem] | [_ Hem]]; [left; exact Hem | exact Hem].
Qed.

Lemma lifecycle_react s ev : lifecycle s -> lifecycle (react1 s ev).
Proof.
  intros Hl. destruct ev as [sig|]; simpl; [apply lifecycle_deliver, Hl|].
  unfold observer_unsubscribe. destruct (observerStopped s) eqn:Hs; [exact Hl|].
  apply (lifecycle_stop s); [exact Hl| |]; unfold observer_close;
    destruct (teardownAdded s); reflexivity.
Qed.

Lemma lifecycle_foldl_deliver sync : forall s,
  lifecycle s -> lifecycle (foldl deliver1 s sync).
Proof.
  induction sync as [|sig sync IH]; intros s Hl; simpl; [exact Hl|].
  apply IH, lifecycle_deliver, Hl.
Qed.

Lemma lifecycle_subscribe sync : lifecycle (subscribe1 sync).
Proof.
  unfold subscribe.
  set (s := foldl _ _ sync).
  assert (Hl : lifecycle s).
  { apply lifecycle_foldl_deliver. left. split; reflexivity. }
  unfold addTeardown. destruct (observerStopped s) eqn:Hs.
  - apply (lifecycle_stop s); [exact Hl | reflexivity | reflexivity].
  - destruct Hl as [[_ Hem] | [Hstop _]]; [|congruence].
    left. split; [reflexivity | exact Hem].
Qed.

Lemma lifecycle_run sync later : lifecycle (run sync later).
Proof.
  unfold queryLogsVolume. generalize (lifecycle_subscribe sync).
  generalize (subscribe1 sync). induction later as [|ev later IH]; intros s Hl;
    simpl; [exact Hl|].
  apply IH, lifecycle_react, Hl.
Qed.

Lemma tornDown_subscribe sync : tornDown (subscribe1 sync).
Proof.
  unfold subscribe, addTeardown. set (s := foldl _ _ sync).
  destruct (observerStopped s) eqn:Hs; split; simpl; auto.
  discriminate.
Qed.

Lemma tornDown_react s ev : tornDown s -> tornDown (react1 s ev).
Proof.
  intros [Htd Hinv]. destruct ev as [sig|]; simpl.
  - destruct (deliver_cases s sig) as (Htd' & _ & _ & [(_ & Hs & Hc) | Hend]).
    + split; [congruence|]. rewrite Hs. auto.
    + destruct Hend as (_ & _ & _ & Hc & _). split; [congruence | auto].
  - unfold observer_unsubscribe. destruct (observerStopped s) eqn:Hs.
    + split; [exact Htd|]. rewrite Hs. exact Hinv.
    + unfold observer_close. rewrite Htd. split; reflexivity.
Qed.

Lemma tornDown_run sync later : tornDown (run sync later).
Proof.
  unfold queryLogsVolume. generalize (tornDown_subscribe sync).
  generalize (subscribe1 sync). induction later as [|ev later IH]; intros s Ht;
    simpl; [exact Ht|].
  apply IH, tornDown_react, Ht.
Qed.

Lemma unsubscribe_quiet s :
  tornDown s ->
  emitted (observer_unsubscribe s) = emitted s /\
  observerStopped (observer_unsubscribe s) = true /\
  subscriptionClosed (observer_unsubscribe s) = true.
Proof.
  intros [Htd Hinv]. unfold observer_unsubscribe.
  destruct (observerStopped s) eqn:Hs; [auto|].
  unfold observer_close. rewrite Htd. repeat split.
Qed.

Lemma publishedDone_deliver s sig :
  publishedDone (deliver1 s sig) -> publishedDone s \/ sig = UpComplete.
Proof.
  intros (r & Hin & Hr).
  destruct (deliver_cases s sig) as (_ & _ & _ & [(He & _) | Hend]).
  - left. exists r. unfold published in *. rewrite He in Hin. auto.
  - destruct Hend as (_ & _ & _ & _ & [(-> & _) | (e & _ & He)]); [right; reflexivity|].
    left. exists r. split; [|exact Hr].
    unfold published in *. rewrite He, omap_app in Hin. simpl in Hin.
    apply elem_of_app in Hin as [Hin | Hin]; [exact Hin|].
    apply list_elem_of_singleton in Hin. subst r. discriminate.
Qed.

Lemma publishedDone_foldl_deliver sync : forall s,
  publishedDone (foldl deliver1 s sync) -> publishedDone s \/ UpComplete ∈ sync.
Proof.
  induction sync as [|sig sync IH]; intros s Hd; simpl in *; [left; exact Hd|].
  destruct (IH _ Hd) as [Hd' | Hin]; [|right; right; exact Hin].
  destruct (publishedDone_deliver _ _ Hd') as [H | ->]; [left; exact H|].
  right. left.
Qed.

Lemma publishedDone_foldl_react later : forall s,
  publishedDone (foldl react1 s later) ->
  publishedDone s \/ FromUpstream UpComplete ∈ later.
Proof.
  induction later as [|ev later IH]; intros s Hd; simpl in *; [left; exact Hd|].
  destruct (IH _ Hd) as [Hd' | Hin]; [|right; right; exact Hin].
  destruct ev as [sig|]; simpl in Hd'.
  - destruct (publishedDone_deliver _ _ Hd') as [H | ->]; [left; exact H|].
    right. left.
  - left. destruct Hd' as (r & Hin & Hr). exists r. split; [|exact Hr].
    unfold published, observer_unsubscribe, observer_close in *.
    destruct (observerStopped s), (teardownAdded s); exact Hin.
Qed.

Lemma published_lifecycle s :
  lifecycle s ->
  published s = [loadingState] \/
  exists r, isTerminal r = true /\ published s = [loadingState; r].
Proof.
  unfold published.
  intros [[_ ->] | [_ [-> | [(d & ->) | (e & ->)]]]]; simpl.
  - left; reflexivity.
  - left; reflexivity.
  - right. exists (doneState d). split; reflexivity.
  - right. exists (errorState e). split; reflexivity.
Qed.

(** C4. Of one subscription to [queryLogsVolume]: the Loading state
    comes first and at most one state follows it, a Done or an Error;
    a Done state is published only when the datasource has signalled
    completion; and when the caller unsubscribes nothing is published
    from then on and the subscription to the datasource is closed, at
    once and for good. *)
Theorem lifecycle_order sync later :
  (published (run sync later) = [loadingState] \/
   exists r, isTerminal r = true /\
             published (run sync later) = [loadingState; r]) /\
  (publishedDone (run sync later) ->
     UpComplete ∈ sync \/ FromUpstream UpComplete ∈ later) /\
  (forall before after,
     later = before ++ Unsubscribe :: after ->
     published (run sync later) = published (run sync before) /\
     subscriptionClosed (run sync (before ++ [Unsubscribe])) = true /\
     subscriptionClosed (run sync later) = true).
Proof.
  split; [apply published_lifecycle, lifecycle_run|]. split.
  - intros Hd. unfold queryLogsVolume in Hd.
    apply publishedDone_foldl_react in Hd as [Hd | Hin]; [|right; exact Hin].
    left. unfold subscribe in Hd.
    assert (Hd' : publishedDone
              (foldl deliver1 (issueQuery (observer_next loadingState start)) sync)).
    { destruct Hd as (r & Hin & Hr). exists r. split; [|exact Hr].
      unfold published, addTeardown in *.
      destruct (observerStopped _); exact Hin. }
    apply publishedDone_foldl_deliver in Hd' as [(r & Hin & Hr) | Hin];
      [|exact Hin].
    apply list_elem_of_singleton in Hin. subst r. discriminate.
  - intros before after ->.
    pose proof (unsubscribe_quiet _ (tornDown_run sync before))
      as (Hem & Hstop & Hclosed).
    assert (Hone : run sync (before ++ [Unsubscribe]) =
                   observer_unsubscribe (run sync before)).
    { unfold queryLogsVolume. rewrite foldl_app. reflexivity. }
    assert (Hall : run sync (before ++ Unsubscribe :: after) =
                   observer_unsubscribe (run sync before)).
    { unfold queryLogsVolume. rewrite foldl_app. simpl.
      apply foldl_react_quiet; assumption. }
    rewrite Hone, Hall. unfold published. rewrite Hem. auto.
Qed.

(** ** Errors *)

Lemma deliver_plain s sig :
  plainBatch sig ->
  emitted (deliver1 s sig) = emitted s /\
  observerStopped (deliver1 s sig) = observerStopped s /\
  subscriptionClosed (deliver1 s sig) = subscriptionClosed s /\
  teardownAdded (deliver1 s sig) = teardownAdded s /\
  queriesIssued (deliver1 s sig) = queriesIssued s.
Proof.
  intros (r & -> & Hr). unfold deliver, on_next. rewrite Hr.
  destruct (subscriptionClosed s) eqn:Hc; repeat split; auto.
Qed.

Lemma foldl_deliver_plain pre : forall s,
  Forall plainBatch pre ->
  emitted (foldl deliver1 s pre) = emitted s /\
  observerStopped (foldl deliver1 s pre) = observerStopped s /\
  subscriptionClosed (foldl deliver1 s pre) = subscriptionClosed s /\
  teardownAdded (foldl deliver1 s pre) = teardownAdded s /\
  queriesIssued (foldl deliver1 s pre) = queriesIssued s.
Proof.
  induction pre as [|sig pre IH]; intros s Hpre; simpl; [repeat split|].
  apply Forall_cons in Hpre as [Hsig Hpre].
  destruct (IH (deliver1 s sig) Hpre) as (-> & -> & -> & -> & ->).
  apply deliver_plain, Hsig.
Qed.

Lemma deliver_error s sig e :
  observerStopped s = false -> subscriptionClosed s = false ->
  carriesError sig e ->
  emitted (deliver1 s sig) = emitted s ++ [NextN (errorState e); ErrorN e] /\
  observerStopped (deliver1 s sig) = true /\
  teardownAdded (deliver1 s sig) = teardownAdded s /\
  queriesIssued (deliver1 s sig) = queriesIssued s.
Proof.
  intros Hs Hc [-> | (r & -> & Hr)]; destruct s as [raw st em cl td q];
    simpl in Hs, Hc; subst; unfold_pipeline; simpl; rewrite ?Hr; simpl;
    destruct td; simpl; rewrite <- app_assoc; repeat split.
Qed.

Lemma deliver_stopped s sig :
  observerStopped s = true ->
  emitted (deliver1 s sig) = emitted s /\
  observerStopped (deliver1 s sig) = true /\
  queriesIssued (deliver1 s sig) = queriesIssued s.
Proof.
  intros Hs.
  destruct (deliver_cases s sig) as (_ & Hq & _ & [(He & Hs' & _) | Hend]).
  - rewrite He, Hs', Hq. auto.
  - destruct Hend as (Hlive & _). congruence.
Qed.

Lemma foldl_deliver_stopped post : forall s,
  observerStopped s = true ->
  emitted (foldl deliver1 s post) = emitted s /\
  observerStopped (foldl deliver1 s post) = true /\
  queriesIssued (foldl deliver1 s post) = queriesIssued s.
Proof.
  induction post as [|sig post IH]; intros s Hs; simpl; [auto|].
  destruct (deliver_stopped s sig Hs) as (He & Hs' & Hq).
  destruct (IH _ Hs') as (-> & -> & ->). auto.
Qed.

Lemma foldl_react_stopped post : forall s,
  observerStopped s = true ->
  emitted (foldl react1 s post) = emitted s /\
  observerStopped (foldl react1 s post) = true /\
  queriesIssued (foldl react1 s post) = queriesIssued s.
Proof.
  induction post as [|ev post IH]; intros s Hs; simpl; [auto|].
  assert (Hstep : emitted (react1 s ev) = emitted s /\
                  observerStopped (react1 s ev) = true /\
                  queriesIssued (react1 s ev) = queriesIssued s).
  { destruct ev as [sig|]; simpl; [apply deliver_stopped, Hs|].
    unfold observer_unsubscribe. rewrite Hs. auto. }
  destruct Hstep as (He & Hs' & Hq).
  destruct (IH _ Hs') as (-> & -> & ->). auto.
Qed.

Lemma addTeardown_fields s :
  emitted (addTeardown s) = emitted s /\
  observerStopped (addTeardown s) = observerStopped s /\
  queriesIssued (addTeardown s) = queriesIssued s /\
  (observerStopped s = false ->
     subscriptionClosed (addTeardown s) = subscriptionClosed s).
Proof.
  unfold addTeardown. destruct (observerStopped s) eqn:Hs; simpl;
    repeat split; auto; discriminate.
Qed.

(** C5. When the first signal of the datasource that is not a plain
    batch is an error of the channel or a batch with an embedded error,
    the subscriber receives Loading, then the Error state with that
    very error and no data, then the error notification that ends the
    stream, and nothing else whatever follows: no Done state, one
    single query, the subscription to the datasource closed. *)
Theorem upstream_error_is_terminal sync later e :
  failsFirstWith sync later e ->
  emitted (run sync later) =
    [NextN loadingState; NextN (errorState e); ErrorN e] /\
  published (run sync later) = [loadingState; errorState e] /\
  ~ publishedDone (run sync later) /\
  queriesIssued (run sync later) = 1%nat /\
  subscriptionClosed (run sync later) = true.
Proof.
  intros Hfail.
  assert (Hmain :
    emitted (run sync later) =
      [NextN loadingState; NextN (errorState e); ErrorN e] /\
    observerStopped (run sync later) = true /\
    queriesIssued (run sync later) = 1%nat).
  { unfold queryLogsVolume, subscribe.
    set (s0 := issueQuery (observer_next _ start)).
    destruct Hfail as [(pre & sig & post & -> & Hpre & Hsig)
                      | (Hsync & pre & sig & post & -> & Hpre & Hsig)].
    - rewrite foldl_app. simpl.
      destruct (foldl_deliver_plain pre s0 Hpre) as (He & Hs & Hc & _ & Hq).
      destruct (deliver_error _ sig e Hs Hc Hsig) as (He1 & Hs1 & _ & Hq1).
      destruct (foldl_deliver_stopped post _ Hs1) as (He2 & Hs2 & Hq2).
      destruct (addTeardown_fields
                  (foldl deliver1 (deliver1 (foldl deliver1 s0 pre) sig) post))
        as (He3 & Hs3 & Hq3 & _).
      rewrite Hs2 in Hs3.
      destruct (foldl_react_stopped later _ Hs3) as (-> & -> & ->).
      rewrite He3, He2, He1, He, Hq3, Hq2, Hq1, Hq. auto.
    - destruct (foldl_deliver_plain sync s0 Hsync) as (He & Hs & Hc & _ & Hq).
      destruct (addTeardown_fields (foldl deliver1 s0 sync))
        as (He0 & Hs0 & Hq0 & Hc0).
      specialize (Hc0 Hs). rewrite Hs in Hs0. rewrite Hc in Hc0.
      rewrite foldl_app. simpl. rewrite foldl_fmap.
      set (s1 := addTeardown (foldl deliver1 s0 sync)) in *.
      destruct (foldl_deliver_plain pre s1 Hpre) as (He1 & Hs1 & Hc1 & _ & Hq1).
      rewrite Hs0 in Hs1. rewrite Hc0 in Hc1.
      destruct (deliver_error _ sig e Hs1 Hc1 Hsig) as (He2 & Hs2 & _ & Hq2).
      change (foldl (fun s b => react1 s (FromUpstream b)) s1 pre)
        with (foldl deliver1 s1 pre).
      destruct (foldl_react_stopped post _ Hs2) as (-> & -> & ->).
      rewrite He2, He1, He0, He, Hq2, Hq1, Hq0, Hq. auto. }
  destruct Hmain as (Hem & Hstop & Hq).
  split; [exact Hem|]. unfold publishedDone, published. rewrite Hem. simpl.
  split; [reflexivity|]. split.
  - intros (r & Hin & Hr).
    apply elem_of_cons in Hin as [-> | Hin]; [discriminate|].
    apply list_elem_of_singleton in Hin. subst r. discriminate.
  - split; [exact Hq|]. apply (tornDown_run sync later), Hstop.
Qed.
End PipelineFacts.

(** ** Runs of the pipeline on concrete signals *)

(** The datasource delivers one batch and completes: Loading, then Done
    with the single 'warning' series 1, 0, 3 carrying the provenance. *)
Example queryLogsVolume_done :
  emitted
    (queryLogsVolume classify plainColor VUndefined DataFrame id someOptions []
       [FromUpstream (UpNext warnBatch); FromUpstream UpComplete]) =
    [ NextN loadingState;
      NextN (doneState
               [ {| Time := nums [0; 60000; 120000];
                    Value := nums [1; 0; 3];
                    config := {| displayNameFromDS := "warning";
                                 fixedColor := "warning" |};
                    meta := Some {| custom_targets := [mkDataQuery "A"];
                                    custom_absoluteRange :=
                                      (1700000000000, 1700000120000) |} |} ]);
      CompleteN ].
Proof. vm_compute. reflexivity. Qed.

Lemma lifecycle_order_witness :
  published
    (queryLogsVolume classify plainColor VUndefined DataFrame id someOptions []
       ([FromUpstream (UpNext warnBatch)] ++
        Unsubscribe :: [FromUpstream UpComplete])) =
    [loadingState] /\
  subscriptionClosed
    (queryLogsVolume classify plainColor VUndefined DataFrame id someOptions []
       ([FromUpstream (UpNext warnBatch)] ++
        Unsubscribe :: [FromUpstream UpComplete])) = true.
Proof.
  destruct (lifecycle_order classify plainColor VUndefined DataFrame id
              someOptions []
              ([FromUpstream (UpNext warnBatch)] ++
               Unsubscribe :: [FromUpstream UpComplete]))
    as (_ & _ & Hcancel).
  destruct (Hcancel [FromUpstream (UpNext warnBatch)] [FromUpstream UpComplete]
              eq_refl) as (Hpub & _ & Hclosed).
  split; [|exact Hclosed]. rewrite Hpub. reflexivity.
Defined.

Lemma upstream_error_is_terminal_witness :
  emitted
    (queryLogsVolume classify plainColor VUndefined DataFrame id someOptions []
       [FromUpstream (UpNext warnBatch); FromUpstream (UpError someError);
        FromUpstream UpComplete]) =
    [NextN loadingState; NextN (errorState someError); ErrorN someError].
Proof.
  apply (upstream_error_is_terminal classify plainColor VUndefined DataFrame id
           someOptions []
           [FromUpstream (UpNext warnBatch); FromUpstream (UpError someError);
            FromUpstream UpComplete] someError).
  right. split; [constructor|].
  exists [UpNext warnBatch], (UpError someError), [FromUpstream UpComplete].
  split; [reflexivity|]. split.
  - constructor; [|constructor]. exists warnBatch. split; reflexivity.
  - left. reflexivity.
Defined.

(** ** The scenarios of the specification *)

(** Columns 'warn' 1, 0, 2 and 'warning' 0, 0, 1 fold into the single
    series of 'warning', 1, 0, 3. *)
Example aggregate_warn_warning :
  aggregateRawLogsVolume classify plainColor VUndefined [warnFrame] =
    Some [ {| Time := nums [0; 60000; 120000];
              Value := nums [1; 0; 3];
              config := {| displayNameFromDS := "warning";
                           fixedColor := "warning" |};
              meta := None |} ].
Proof. reflexivity. Qed.

(** A single 'trace' column of zeros gives no series. *)
Example aggregate_all_zero :
  aggregateRawLogsVolume classify plainColor VUndefined
    [mkDataFrame [mkField "time" (nums [0; 60000]); mkField "trace" (nums [0; 0])]]
  = Some [].
Proof. reflexivity. Qed.

(** A batch with an embedded error sent from within the subscription to
    the datasource, with more signals behind it: Loading, then Error,
    and the completion that follows publishes nothing. *)
Example queryLogsVolume_embedded_error :
  emitted
    (queryLogsVolume classify plainColor VUndefined DataFrame id someOptions
       [UpNext warnBatch;
        UpNext {| state := None; error := Some someError; data := [] |};
        UpNext warnBatch; UpComplete]
       []) =
    [NextN loadingState; NextN (errorState someError); ErrorN someError].
Proof. reflexivity. Qed.

(** * Further properties of the reducer *)

Lemma length_first_seen (l : list LogLevel.t) : forall acc,
  (length
     (foldl (fun acc k => if decide (k ∈ acc) then acc else acc ++ [k]) acc l)
   <= length acc + length l)%nat.
Proof.
  induction l as [|k l IH]; intros acc; simpl; [lia|].
  etransitivity; [apply IH|].
  destruct (decide (k ∈ acc)); [lia|]. rewrite length_app. simpl. lia.
Qed.



Section FurtherReducer.
Variable getLogLevelFromKey : string -> LogLevel.t.
Variable LogLevelColor : LogLevel.t -> string.
Variable MISSING_VALUE : JsVal.

Local Abbreviation aggregate :=
  (aggregateRawLogsVolume getLogLevelFromKey LogLevelColor MISSING_VALUE).
Local Abbreviation levels :=
  (logLevelToDataFrame getLogLevelFromKey LogLevelColor MISSING_VALUE).
Local Abbreviation forEach :=
  (forEachField getLogLevelFromKey LogLevelColor MISSING_VALUE).
Local Abbreviation levelOf := (fun f : Field => getLogLevelFromKey (name f)).

(** What every turn of the summing loop establishes holds of all the
    entries once [forEach] is over. *)
Lemma forEachField_after_fold timeField oneLevelDetected
    (P : LevelEntry -> Prop) (levelFields : list Field) :
  (forall field df df',
     sized (length (values timeField)) df ->
     sumLoop timeField field 0 (length (values timeField)) df = Some df' ->
     P df') ->
  forall m m',
    allSized timeField m ->
    (forall k e, Map_get k m = Some e -> P e) ->
    forEach timeField oneLevelDetected (length (values timeField)) levelFields m
      = Some m' ->
    forall k e, Map_get k m' = Some e -> P e.
Proof.
  intros Hstep. induction levelFields as [|field rest IH]; intros m m' Hm HP Hrun.
  - simpl in Hrun. injection Hrun as <-. exact HP.
  - cbn [forEachField] in Hrun.
    destruct (foldField_spec getLogLevelFromKey LogLevelColor MISSING_VALUE
                timeField oneLevelDetected m field Hm)
      as (df' & Hfold & Hs & _).
    pose proof Hfold as Hloop. unfold foldField in Hloop.
    destruct (sumLoop timeField field 0 _ _) as [df1|] eqn:Hsum in Hloop;
      [|discriminate].
    simpl in Hloop. injection Hloop as Hloop.
    assert (df1 = df') as ->.
    { apply (f_equal (Map_get (getLogLevelFromKey (name field)))) in Hloop.
      rewrite !Map_get_set_eq in Hloop. congruence. }
    rewrite Hfold in Hrun. simpl in Hrun.
    apply (IH _ _ (allSized_set timeField (getLogLevelFromKey (name field))
                     df' m Hm Hs)); [|exact Hrun].
    intros k e. destruct (decide (getLogLevelFromKey (name field) = k)) as [<-|Hne].
    + rewrite Map_get_set_eq. intros [= <-].
      eapply Hstep; [|exact Hsum].
      destruct (Map_get _ m) eqn:Hget; [eapply Hm, Hget|].
      split; simpl; apply length_replicate.
    + rewrite Map_get_set_ne by exact Hne. apply HP.
Qed.

(** The keys of the Map grow in the order in which the levels are met. *)
Lemma forEachField_keys timeField oneLevelDetected levelFields : forall m m',
  allSized timeField m ->
  forEach timeField oneLevelDetected (length (values timeField)) levelFields m
    = Some m' ->
  m'.*1 =
    foldl (fun acc k => if decide (k ∈ acc) then acc else acc ++ [k])
      m.*1 (levelOf <$> levelFields).
Proof.
  induction levelFields as [|field rest IH]; intros m m' Hm Hrun.
  - simpl in Hrun. injection Hrun as <-. reflexivity.
  - cbn [forEachField] in Hrun.
    destruct (foldField_spec getLogLevelFromKey LogLevelColor MISSING_VALUE
                timeField oneLevelDetected m field Hm)
      as (df' & Hfold & Hs & _).
    rewrite Hfold in Hrun. simpl in Hrun.
    rewrite (IH _ _ (allSized_set timeField (getLogLevelFromKey (name field))
                       df' m Hm Hs) Hrun).
    rewrite fmap_cons. simpl. f_equal. rewrite Map_set_keys.
    destruct (Map_get (getLogLevelFromKey (name field)) m) eqn:Hget.
    + rewrite decide_True; [reflexivity|].
      apply Map_get_elem_of in Hget.
      apply (list_elem_of_fmap_2 fst) in Hget. exact Hget.
    + rewrite decide_False; [reflexivity|]. apply Map_get_None, Hget.
Qed.

(** X1. The reducer never throws, whatever the frames and the lengths
    of their columns: the summing loop never writes past the end of an
    accumulated frame.  For a single frame it returns at most as many
    series as the frame has fields not named 'time'. *)
Theorem aggregate_never_throws rawLogsVolume :
  exists out,
    aggregateRawLogsVolume getLogLevelFromKey LogLevelColor MISSING_VALUE
      rawLogsVolume = Some out /\
    forall raw, rawLogsVolume = [raw] ->
      (length out <= length (levelFieldsOf raw))%nat.
Proof.
  destruct rawLogsVolume as [|raw [|raw' rest]];
    [exists []; split; [reflexivity | intros r; discriminate] |
    | exists []; split; [reflexivity | intros r; discriminate]].
  rewrite aggregate_single.
  destruct (timeFieldOf raw) as [tf|];
    [|exists []; split; [reflexivity | intros r _; simpl; lia]].
  destruct (logLevelToDataFrame_total getLogLevelFromKey LogLevelColor
              MISSING_VALUE tf (levelFieldsOf raw)) as (m & Hm & _ & _).
  rewrite Hm. exists (nonZeroFrames m). split; [reflexivity|].
  intros r [= <-].
  rewrite nonZeroFrames_filter, length_fmap.
  etransitivity; [apply length_filter|].
  unfold Map_values. rewrite length_fmap, <- (length_fmap fst).
  unfold logLevelToDataFrame in Hm.
  rewrite (forEachField_keys tf (oneLevel (levelFieldsOf raw))
             (levelFieldsOf raw) [] m ltac:(intros k e; discriminate) Hm).
  etransitivity; [apply length_first_seen|].
  simpl. rewrite length_fmap. lia.
Qed.

(** X2. The Map holds one entry per level met among the level columns,
    in the order in which the levels are first met, and the output is
    made of the frames of the flagged entries in that same order. *)
Theorem levels_in_first_seen_order raw timeField :
  timeFieldOf raw = Some timeField ->
  exists m,
    levels timeField (levelFieldsOf raw) = Some m /\
    m.*1 = firstSeen (levelOf <$> levelFieldsOf raw) /\
    NoDup m.*1 /\
    aggregate [raw] =
      Some (frame <$> filter (fun e => hasNonZeroValues e = true) (Map_values m)).
Proof.
  intros Htf.
  destruct (logLevelToDataFrame_total getLogLevelFromKey LogLevelColor
              MISSING_VALUE timeField (levelFieldsOf raw)) as (m & Hm & _ & Hnd).
  exists m. split; [exact Hm|]. split; [|split; [exact Hnd|]].
  - unfold logLevelToDataFrame in Hm. unfold firstSeen.
    apply (forEachField_keys timeField (oneLevel (levelFieldsOf raw))
             (levelFieldsOf raw) [] m); [intros k e; discriminate | exact Hm].
  - rewrite aggregate_single, Htf, Hm. simpl.
    rewrite nonZeroFrames_filter. reflexivity.
Qed.

(** X3. Every emitted series has the time field itself as its time
    column, and as many values as the time field has rows. *)
Theorem emitted_frames_aligned raw timeField :
  timeFieldOf raw = Some timeField ->
  exists out,
    aggregate [raw] = Some out /\
    forall f, f ∈ out ->
      Time f = values timeField /\
      length (Value f) = length (values timeField).
Proof.
  intros Htf.
  destruct (logLevelToDataFrame_total getLogLevelFromKey LogLevelColor
              MISSING_VALUE timeField (levelFieldsOf raw)) as (m & Hm & Hs & Hnd).
  exists (nonZeroFrames m). split.
  { rewrite aggregate_single, Htf, Hm. reflexivity. }
  intros f Hf. rewrite nonZeroFrames_filter in Hf.
  apply list_elem_of_fmap in Hf as (e & -> & He).
  apply list_elem_of_filter in He as [_ He].
  unfold Map_values in He. apply list_elem_of_fmap in He as ([k e'] & -> & Hin).
  apply (elem_of_Map_get _ _ _ Hnd) in Hin. simpl.
  split; [|apply (Hs k e' Hin)].
  unfold logLevelToDataFrame in Hm.
  apply (forEachField_after_fold timeField (oneLevel (levelFieldsOf raw))
           (fun e => Time (frame e) = values timeField)
           (levelFieldsOf raw)) with (m := []) (m' := m) (k := k);
    [| intros k0 e0; discriminate | intros k0 e0; discriminate | exact Hm | exact Hin].
  intros field df df' Hsz Hrun.
  destruct (sumLoop_spec timeField field _ _ 0%nat df Hsz eq_refl)
    as (df2 & Hrun2 & [Hlen _] & _ & _ & _ & Hhigh & _).
  rewrite Hrun in Hrun2. injection Hrun2 as <-.
  apply (list_eq_same_length _ _ (length (values timeField))); [reflexivity | exact Hlen |].
  intros i x y Hi Hx Hy.
  destruct (Hhigh i ltac:(lia)) as [_ Ht]. rewrite Ht in Hx. injection Hx as <-.
  unfold vector_get. rewrite Hy. reflexivity.
Qed.

End FurtherReducer.

Lemma aggregate_never_throws_witness :
  exists out,
    aggregateRawLogsVolume classify plainColor VUndefined [raggedFrame] = Some out /\
    (length out <= 2)%nat.
Proof.
  destruct (aggregate_never_throws classify plainColor VUndefined [raggedFrame])
    as (out & Hout & Hlen).
  exists out. split; [exact Hout|]. apply (Hlen raggedFrame). reflexivity.
Defined.

Lemma partialSumPositive_cons start c cells :
  partialSumPositive start (c :: cells) <->
  gt_zero (totalValue start c) = true \/
  partialSumPositive (totalValue start c) cells.
Proof.
  unfold partialSumPositive. split.
  - intros ([|k] & Hk & Hpos); simpl in *.
    + left. rewrite ?take_0 in Hpos. exact Hpos.
    + right. exists k. split; [lia | exact Hpos].
  - intros [Hpos | (k & Hk & Hpos)].
    + exists 0%nat. simpl. rewrite ?take_0. split; [lia | exact Hpos].
    + exists (S k). simpl. split; [lia | exact Hpos].
Qed.

Lemma vector_get_resize n l i :
  (i < n)%nat -> vector_get (resize n VUndefined l) i = vector_get l i.
Proof.
  intros Hi. unfold vector_get.
  destruct (decide (i < length l)%nat) as [Hlt|Hge].
  - rewrite lookup_resize by assumption. reflexivity.
  - rewrite lookup_resize_new by lia.
    rewrite (lookup_ge_None_2 l i) by lia. reflexivity.
Qed.

Lemma sumLoop_ext timeField field field' remaining : forall pointIndex df,
  (forall i, (pointIndex <= i < pointIndex + remaining)%nat ->
     vector_get (values field) i = vector_get (values field') i) ->
  sumLoop timeField field pointIndex remaining df =
    sumLoop timeField field' pointIndex remaining df.
Proof.
  induction remaining as [|r IH]; intros p df Hsame; simpl; [reflexivity|].
  assert (Hpoint : sumPoint timeField field p df = sumPoint timeField field' p df).
  { unfold sumPoint. rewrite (Hsame p) by lia. reflexivity. }
  rewrite Hpoint. destruct (sumPoint timeField field' p df) as [df1|]; simpl;
    [|reflexivity].
  apply IH. intros i Hi. apply Hsame. lia.
Qed.

Section EmissionAndBounds.
Variable getLogLevelFromKey : string -> LogLevel.t.
Variable LogLevelColor : LogLevel.t -> string.
Variable MISSING_VALUE : JsVal.

Local Abbreviation aggregate :=
  (aggregateRawLogsVolume getLogLevelFromKey LogLevelColor MISSING_VALUE).
Local Abbreviation levels :=
  (logLevelToDataFrame getLogLevelFromKey LogLevelColor MISSING_VALUE).
Local Abbreviation forEach :=
  (forEachField getLogLevelFromKey LogLevelColor MISSING_VALUE).
Local Abbreviation cells := (columnCells getLogLevelFromKey).

(** The flag of a level after [forEach]: it was set before, or some
    partial sum of some row is positive. *)
Lemma forEachField_flags timeField oneLevelDetected levelFields : forall m m',
  allSized timeField m ->
  forEach timeField oneLevelDetected (length (values timeField)) levelFields m
    = Some m' ->
  forall lvl,
    hasNonZeroValues
      (entryOr LogLevelColor MISSING_VALUE timeField oneLevelDetected lvl m')
      = true <->
    hasNonZeroValues
      (entryOr LogLevelColor MISSING_VALUE timeField oneLevelDetected lvl m)
      = true \/
    exists i, (i < length (values timeField))%nat /\
      partialSumPositive
        (vector_get
           (Value (frame (entryOr LogLevelColor MISSING_VALUE timeField
                            oneLevelDetected lvl m))) i)
        (cells lvl levelFields i).
Proof.
  induction levelFields as [|field rest IH]; intros m m' Hm Hrun lvl.
  - simpl in Hrun. injection Hrun as <-. split; [auto|].
    intros [H | (i & _ & k & Hk & _)]; [exact H|]. simpl in Hk. lia.
  - cbn [forEachField] in Hrun.
    destruct (foldField_spec getLogLevelFromKey LogLevelColor MISSING_VALUE
                timeField oneLevelDetected m field Hm)
      as (df' & Hfold & Hs & _ & Hcells & Hflag).
    cbv zeta in Hfold, Hcells, Hflag.
    set (l0 := getLogLevelFromKey (name field)) in *.
    rewrite Hfold in Hrun. simpl in Hrun.
    rewrite (IH _ _ (allSized_set timeField l0 df' m Hm Hs) Hrun lvl).
    unfold columnCells. rewrite filter_cons. fold l0.
    destruct (decide (l0 = lvl)) as [->|Hne].
    + rewrite entryOr_set_eq, Hflag.
      split.
      * intros [[H | (i & Hi & Hpos)] | (i & Hi & Hpsp)].
        -- left; exact H.
        -- right. exists i. split; [exact Hi|]. rewrite fmap_cons.
           apply partialSumPositive_cons. left. exact Hpos.
        -- right. exists i. split; [exact Hi|]. rewrite fmap_cons.
           apply partialSumPositive_cons. right.
           destruct (Hcells i Hi) as [Hv _].
           rewrite (vector_get_lookup _ _ _ Hv) in Hpsp. exact Hpsp.
      * intros [H | (i & Hi & Hpsp)]; [left; left; exact H|].
        rewrite fmap_cons in Hpsp.
        apply partialSumPositive_cons in Hpsp as [Hpos | Hpsp].
        -- left; right. exists i. split; [exact Hi | exact Hpos].
        -- right. exists i. split; [exact Hi|].
           destruct (Hcells i Hi) as [Hv _].
           rewrite (vector_get_lookup _ _ _ Hv). exact Hpsp.
    + rewrite entryOr_set_ne by exact Hne. reflexivity.
Qed.

Lemma logLevelToDataFrame_flag timeField levelFields m lvl e :
  levels timeField levelFields = Some m ->
  Map_get lvl m = Some e ->
  hasNonZeroValues e = true <->
  exists i, (i < length (values timeField))%nat /\
    partialSumPositive MISSING_VALUE (cells lvl levelFields i).
Proof.
  intros Hm Hget. unfold logLevelToDataFrame in Hm.
  pose proof (forEachField_flags timeField (oneLevel levelFields) levelFields
                [] m ltac:(intros k e'; discriminate) Hm lvl) as Hflag.
  unfold entryOr in Hflag at 1. rewrite Hget in Hflag. simpl in Hflag.
  rewrite Hflag. split.
  - intros [H | (i & Hi & Hpsp)]; [discriminate|].
    exists i. split; [exact Hi|].
    rewrite vector_get_replicate in Hpsp by exact Hi. exact Hpsp.
  - intros (i & Hi & Hpsp). right. exists i. split; [exact Hi|].
    rewrite vector_get_replicate by exact Hi. exact Hpsp.
Qed.

(** X5. For all cells, negative ones too, a level is flagged, and so
    emitted, exactly when at some row one of the partial sums obtained
    by folding its columns in order is a positive number. *)
Theorem emission_criterion raw timeField :
  timeFieldOf raw = Some timeField ->
  exists m,
    levels timeField (levelFieldsOf raw) = Some m /\
    aggregate [raw] =
      Some (frame <$> filter (fun e => hasNonZeroValues e = true) (Map_values m)) /\
    forall lvl e, Map_get lvl m = Some e ->
      (hasNonZeroValues e = true <->
       exists i, (i < length (values timeField))%nat /\
         partialSumPositive MISSING_VALUE (cells lvl (levelFieldsOf raw) i)).
Proof.
  intros Htf.
  destruct (logLevelToDataFrame_total getLogLevelFromKey LogLevelColor
              MISSING_VALUE timeField (levelFieldsOf raw)) as (m & Hm & _).
  exists m. split; [exact Hm|]. split.
  - rewrite aggregate_single, Htf, Hm. simpl.
    rewrite nonZeroFrames_filter. reflexivity.
  - intros lvl e Hget. apply (logLevelToDataFrame_flag _ _ _ _ _ Hm Hget).
Qed.

(** X6. A frame whose time field has no rows gives no series, whatever
    its level columns hold. *)
Theorem no_rows_no_series raw timeField :
  timeFieldOf raw = Some timeField ->
  values timeField = [] ->
  aggregate [raw] = Some [].
Proof.
  intros Htf Hrows.
  destruct (logLevelToDataFrame_total getLogLevelFromKey LogLevelColor
              MISSING_VALUE timeField (levelFieldsOf raw)) as (m & Hm & _ & Hnd).
  rewrite aggregate_single, Htf, Hm. simpl. rewrite nonZeroFrames_filter.
  destruct (filter _ (Map_values m)) as [|e rest] eqn:Hfilter; [reflexivity|].
  exfalso.
  assert (He : e ∈ filter (fun e => hasNonZeroValues e = true) (Map_values m))
    by (rewrite Hfilter; left).
  apply list_elem_of_filter in He as [Hflag He].
  unfold Map_values in He. apply list_elem_of_fmap in He as ([k e'] & -> & Hin).
  apply (elem_of_Map_get _ _ _ Hnd) in Hin.
  apply (logLevelToDataFrame_flag _ _ _ _ _ Hm Hin) in Hflag as (i & Hi & _).
  rewrite Hrows in Hi. simpl in Hi. lia.
Qed.

Lemma forEachField_resize timeField oneLevelDetected levelFields : forall m,
  forEach timeField oneLevelDetected (length (values timeField))
    (resizeField (length (values timeField)) <$> levelFields) m =
  forEach timeField oneLevelDetected (length (values timeField)) levelFields m.
Proof.
  induction levelFields as [|field rest IH]; intros m; [reflexivity|].
  rewrite fmap_cons. cbn [forEachField].
  assert (Hfold :
    foldField getLogLevelFromKey LogLevelColor MISSING_VALUE timeField
      oneLevelDetected (length (values timeField)) m
      (resizeField (length (values timeField)) field) =
    foldField getLogLevelFromKey LogLevelColor MISSING_VALUE timeField
      oneLevelDetected (length (values timeField)) m field).
  { unfold foldField. simpl.
    rewrite (sumLoop_ext timeField (resizeField (length (values timeField)) field)
               field); [reflexivity|].
    intros i Hi. simpl. apply vector_get_resize. lia. }
  rewrite Hfold. destruct (foldField _ _ _ _ _ _ m field); simpl; [apply IH | reflexivity].
Qed.

Lemma oneLevel_resize n levelFields :
  oneLevel (resizeField n <$> levelFields) = oneLevel levelFields.
Proof. destruct levelFields as [|f [|g rest]]; reflexivity. Qed.

Lemma partition_resized n timeField fs :
  isTimeField timeField = true ->
  partitionFields
    (timeField ::
     (resizeField n <$> filter (fun f => isTimeField f = false) fs)) =
  ([timeField], resizeField n <$> filter (fun f => isTimeField f = false) fs).
Proof.
  intros Htime. unfold partitionFields.
  rewrite !filter_cons. rewrite decide_True by exact Htime.
  rewrite decide_False by (rewrite Htime; discriminate).
  induction fs as [|f fs IH]; [reflexivity|].
  rewrite filter_cons.
  destruct (decide (isTimeField f = false)) as [Hf|Hf]; [|exact IH].
  rewrite fmap_cons, !filter_cons.
  change (isTimeField (resizeField n f)) with (isTimeField f).
  rewrite decide_False by (rewrite Hf; discriminate).
  rewrite decide_True by exact Hf.
  injection IH as IH1 IH2. rewrite IH1, IH2. reflexivity.
Qed.

(** X7. Only the first rows of a level column count, as many as the time
    field has: cutting every level column to that length, or padding a
    shorter one with cells without value, changes nothing in the
    outcome. *)
Theorem columns_read_up_to_time_length raw timeField :
  timeFieldOf raw = Some timeField ->
  aggregate
    [mkDataFrame
       (timeField ::
        (resizeField (length (values timeField)) <$> levelFieldsOf raw))] =
  aggregate [raw].
Proof.
  intros Htf.
  assert (Htime : isTimeField timeField = true).
  { unfold timeFieldOf, partitionFields in Htf. simpl in Htf.
    apply head_Some_elem_of in Htf.
    apply list_elem_of_filter in Htf as [Htime _]. exact Htime. }
  rewrite !aggregate_single, Htf.
  unfold timeFieldOf, levelFieldsOf. simpl fields.
  unfold levelFieldsOf in *.
  rewrite (partition_resized _ _ _ Htime). simpl.
  unfold logLevelToDataFrame.
  rewrite oneLevel_resize, forEachField_resize. reflexivity.
Qed.
End EmissionAndBounds.

Lemma levels_in_first_seen_order_witness :
  exists m,
    logLevelToDataFrame classify plainColor VUndefined
      (mkField "time" (nums [0; 60000])) (levelFieldsOf mixedFrame) = Some m /\
    m.*1 = [LogLevel.warning; LogLevel.trace].
Proof.
  destruct (levels_in_first_seen_order classify plainColor VUndefined mixedFrame
              (mkField "time" (nums [0; 60000])) eq_refl)
    as (m & Hm & Hkeys & _).
  exists m. split; [exact Hm|]. rewrite Hkeys. reflexivity.
Defined.

Lemma emitted_frames_aligned_witness :
  exists out,
    aggregateRawLogsVolume classify plainColor VUndefined [raggedFrame] = Some out /\
    forall f, f ∈ out ->
      Time f = nums [0; 60000] /\ length (Value f) = 2%nat.
Proof.
  apply (emitted_frames_aligned classify plainColor VUndefined raggedFrame
           (mkField "time" (nums [0; 60000]))).
  reflexivity.
Defined.


Lemma emission_criterion_witness :
  exists m,
    logLevelToDataFrame classify plainColor VUndefined
      (mkField "time" (nums [0; 60000])) (levelFieldsOf dippingFrame) = Some m /\
    aggregateRawLogsVolume classify plainColor VUndefined [dippingFrame] =
      Some (frame <$> filter (fun e => hasNonZeroValues e = true) (Map_values m)) /\
    (Value <$> (frame <$> filter (fun e => hasNonZeroValues e = true) (Map_values m)))
      = [nums [-1; 0]].
Proof.
  destruct (emission_criterion classify plainColor VUndefined dippingFrame
              (mkField "time" (nums [0; 60000])) eq_refl)
    as (m & Hm & Hout & _).
  exists m. split; [exact Hm|]. split; [exact Hout|].
  vm_compute in Hm. injection Hm as <-. reflexivity.
Defined.

Lemma no_rows_no_series_witness :
  aggregateRawLogsVolume classify plainColor VUndefined
    [mkDataFrame [mkField "time" []; mkField "warn" (nums [3; 4])]] = Some [].
Proof.
  apply (no_rows_no_series classify plainColor VUndefined
           (mkDataFrame [mkField "time" []; mkField "warn" (nums [3; 4])])
           (mkField "time" [])); reflexivity.
Defined.

Lemma columns_read_up_to_time_length_witness :
  aggregateRawLogsVolume classify plainColor VUndefined
    [mkDataFrame [ mkField "time" (nums [0; 60000]);
                   mkField "warn" (nums [1; 0]);
                   mkField "info" [VNum 5; VUndefined] ]] =
  aggregateRawLogsVolume classify plainColor VUndefined [raggedFrame].
Proof.
  apply (columns_read_up_to_time_length classify plainColor VUndefined raggedFrame
           (mkField "time" (nums [0; 60000]))).
  reflexivity.
Defined.

Section SeriesMetadata.
Variable getLogLevelFromKey : string -> LogLevel.t.
Variable LogLevelColor : LogLevel.t -> string.
Variable MISSING_VALUE : JsVal.

Local Abbreviation aggregate :=
  (aggregateRawLogsVolume getLogLevelFromKey LogLevelColor MISSING_VALUE).
Local Abbreviation levels :=
  (logLevelToDataFrame getLogLevelFromKey LogLevelColor MISSING_VALUE).

Lemma logLevelToDataFrame_meta timeField levelFields m lvl e :
  levels timeField levelFields = Some m ->
  Map_get lvl m = Some e ->
  meta (frame e) = None.
Proof.
  intros Hm Hget. unfold logLevelToDataFrame in Hm.
  destruct (forEachField_invariant getLogLevelFromKey LogLevelColor
              MISSING_VALUE timeField (oneLevel levelFields)
              (fun _ d => meta (frame d) = None) levelFields)
    with (m := @nil (LogLevel.t * LevelEntry))
    as (m' & Hm' & _ & _ & HP).
  - reflexivity.
  - intros field df df' _ Hs Hnone Hrun.
    destruct (sumLoop_spec timeField field _ _ 0%nat df Hs eq_refl)
      as (df2 & Hrun2 & _ & _ & Hmeta & _).
    rewrite Hrun in Hrun2. injection Hrun2 as <-. congruence.
  - intros k d. discriminate.
  - constructor.
  - intros k d. discriminate.
  - rewrite Hm in Hm'. injection Hm' as <-. apply (HP lvl e Hget).
Qed.

Lemma aggregate_meta rawLogsVolume out :
  aggregate rawLogsVolume = Some out -> Forall (fun f => meta f = None) out.
Proof.
  destruct rawLogsVolume as [|raw [|raw' rest]]; try (intros [= <-]; constructor).
  rewrite aggregate_single.
  destruct (timeFieldOf raw) as [tf|]; [|intros [= <-]; constructor].
  destruct (logLevelToDataFrame_total getLogLevelFromKey LogLevelColor
              MISSING_VALUE tf (levelFieldsOf raw)) as (m & Hm & _ & Hnd).
  rewrite Hm. simpl. intros [= <-]. apply Forall_forall. intros f Hf.
  rewrite nonZeroFrames_filter in Hf.
  apply list_elem_of_fmap in Hf as (e & -> & He).
  apply list_elem_of_filter in He as [_ He].
  unfold Map_values in He. apply list_elem_of_fmap in He as ([k e'] & -> & Hin).
  apply (elem_of_Map_get _ _ _ Hnd) in Hin.
  apply (logLevelToDataFrame_meta _ _ _ _ _ Hm Hin).
Qed.

(** X8. Every emitted series has the fixed colour of its level, also
    when it is displayed as 'logs', and the reducer gives it no meta. *)
Theorem series_colour_by_level raw timeField :
  timeFieldOf raw = Some timeField ->
  exists m out,
    levels timeField (levelFieldsOf raw) = Some m /\
    aggregate [raw] = Some out /\
    forall f, f ∈ out ->
      exists lvl e,
        Map_get lvl m = Some e /\ frame e = f /\
        fixedColor (config f) = LogLevelColor lvl /\
        meta f = None.
Proof.
  intros Htf.
  destruct (logLevelToDataFrame_total getLogLevelFromKey LogLevelColor
              MISSING_VALUE timeField (levelFieldsOf raw)) as (m & Hm & _ & Hnd).
  exists m, (nonZeroFrames m). split; [exact Hm|]. split.
  { rewrite aggregate_single, Htf, Hm. reflexivity. }
  intros f Hf. rewrite nonZeroFrames_filter in Hf.
  apply list_elem_of_fmap in Hf as (e & -> & He).
  apply list_elem_of_filter in He as [_ He].
  unfold Map_values in He. apply list_elem_of_fmap in He as ([k e'] & -> & Hin).
  apply (elem_of_Map_get _ _ _ Hnd) in Hin. simpl.
  exists k, e'. split; [exact Hin|]. split; [reflexivity|]. split.
  - rewrite (logLevelToDataFrame_config getLogLevelFromKey LogLevelColor
               MISSING_VALUE _ _ _ _ _ Hm Hin). reflexivity.
  - apply (logLevelToDataFrame_meta _ _ _ _ _ Hm Hin).
Qed.
End SeriesMetadata.

Lemma series_colour_by_level_witness :
  exists out,
    aggregateRawLogsVolume classify plainColor VUndefined [logsFrame] = Some out /\
    (fixedColor ∘ config <$> out) = ["unknown"].
Proof.
  destruct (series_colour_by_level classify plainColor VUndefined logsFrame
              (mkField "time" (nums [0; 60000])) eq_refl)
    as (m & out & _ & Hout & _).
  exists out. split; [exact Hout|].
  vm_compute in Hout. injection Hout as <-. reflexivity.
Defined.

(** * Further properties of the interval resolution *)

(** X9. Whatever the scoped variables and the span, the label and the
    width that [getIntervalInfo] returns go together: the placeholder
    without width, or one of 1ms, 1s, 1m, 1h, 1d with its number of
    milliseconds. *)
Theorem getIntervalInfo_known scopedVars timespanMs info :
  getIntervalInfo scopedVars timespanMs = Some info ->
  info ∈ knownIntervals.
Proof.
  unfold getIntervalInfo, knownIntervals.
  destruct (__interval scopedVars) as [iv|];
    [destruct (__interval_ms scopedVars) as [ms|]; simpl; [|discriminate]|].
  - repeat match goal with
           | |- context [?a <? ?b] => destruct (Z.ltb_spec a b)
           end; intros [= <-]; apply list_elem_of_In; simpl; auto 10.
  - intros [= <-]. left.
Qed.

Lemma getIntervalInfo_known_witness :
  {| interval := "1h"; intervalMs := Some 3600000 |} ∈ knownIntervals.
Proof.
  apply (getIntervalInfo_known
           {| __interval := Some (mkScopedVar "5m" "5m");
              __interval_ms := Some (mkScopedVar "300000" 300000) |} 86400000).
  reflexivity.
Defined.

(** X10. For a span of at least 5000 ms the bucket is at least a second
    wide and never narrower than a hint of up to a day; a hint above a
    day still gets the day. *)
Theorem bucket_covers_hint scopedVars timespanMs iv hint :
  __interval scopedVars = Some iv ->
  __interval_ms scopedVars = Some hint ->
  5000 <= timespanMs ->
  exists label width,
    getIntervalInfo scopedVars timespanMs =
      Some {| interval := label; intervalMs := Some width |} /\
    1000 <= width <= 86400000 /\
    (value hint <= 86400000 -> value hint <= width) /\
    (86400000 < value hint -> width = 86400000).
Proof.
  intros Hiv Hms Hts. unfold getIntervalInfo. rewrite Hiv, Hms. simpl.
  change (SECOND * 5) with 5000. change HOUR with 3600000.
  change MINUTE with 60000. change SECOND with 1000. change DAY with 86400000.
  destruct (Z.ltb_spec timespanMs 5000); [lia|].
  destruct (Z.ltb_spec 3600000 (value hint));
    [|destruct (Z.ltb_spec 60000 (value hint));
      [|destruct (Z.ltb_spec 1000 (value hint))]];
    eexists _, _; (split; [reflexivity|]); lia.
Qed.

Lemma bucket_covers_hint_witness :
  exists label width,
    getIntervalInfo
      {| __interval := Some (mkScopedVar "90s" "90s");
         __interval_ms := Some (mkScopedVar "90000" 90000) |} 7200000 =
      Some {| interval := label; intervalMs := Some width |} /\
    1000 <= width <= 86400000 /\
    (90000 <= 86400000 -> 90000 <= width) /\
    (86400000 < 90000 -> width = 86400000).
Proof.
  apply (bucket_covers_hint
           {| __interval := Some (mkScopedVar "90s" "90s");
              __interval_ms := Some (mkScopedVar "90000" 90000) |} 7200000
           (mkScopedVar "90s" "90s") (mkScopedVar "90000" 90000));
    [reflexivity | reflexivity | lia].
Defined.

(** X11. Over one and the same span a larger hint never gets a narrower
    bucket. *)
Theorem bucket_monotone scopedVars1 scopedVars2 timespanMs iv1 iv2 hint1 hint2 :
  __interval scopedVars1 = Some iv1 ->
  __interval_ms scopedVars1 = Some hint1 ->
  __interval scopedVars2 = Some iv2 ->
  __interval_ms scopedVars2 = Some hint2 ->
  value hint1 <= value hint2 ->
  exists label1 width1 label2 width2,
    getIntervalInfo scopedVars1 timespanMs =
      Some {| interval := label1; intervalMs := Some width1 |} /\
    getIntervalInfo scopedVars2 timespanMs =
      Some {| interval := label2; intervalMs := Some width2 |} /\
    width1 <= width2.
Proof.
  intros Hiv1 Hms1 Hiv2 Hms2 Hle. unfold getIntervalInfo.
  rewrite Hiv1, Hms1, Hiv2, Hms2. simpl.
  change (SECOND * 5) with 5000. change HOUR with 3600000.
  change MINUTE with 60000. change SECOND with 1000. change DAY with 86400000.
  change MILLISECOND with 1.
  destruct (Z.ltb_spec timespanMs 5000);
    [eexists _, _, _, _; split; [reflexivity|]; split; [reflexivity|]; lia|].
  destruct (Z.ltb_spec 3600000 (value hint1)), (Z.ltb_spec 3600000 (value hint2));
    try lia;
    destruct (Z.ltb_spec 60000 (value hint1)), (Z.ltb_spec 60000 (value hint2));
    try lia;
    destruct (Z.ltb_spec 1000 (value hint1)), (Z.ltb_spec 1000 (value hint2));
    try lia;
    eexists _, _, _, _; (split; [reflexivity|]); (split; [reflexivity|]); lia.
Qed.

Lemma bucket_monotone_witness :
  exists label1 width1 label2 width2,
    getIntervalInfo
      {| __interval := Some (mkScopedVar "30s" "30s");
         __interval_ms := Some (mkScopedVar "30000" 30000) |} 86400000 =
      Some {| interval := label1; intervalMs := Some width1 |} /\
    getIntervalInfo
      {| __interval := Some (mkScopedVar "2h" "2h");
         __interval_ms := Some (mkScopedVar "7200000" 7200000) |} 86400000 =
      Some {| interval := label2; intervalMs := Some width2 |} /\
    width1 <= width2.
Proof.
  apply (bucket_monotone
           {| __interval := Some (mkScopedVar "30s" "30s");
              __interval_ms := Some (mkScopedVar "30000" 30000) |}
           {| __interval := Some (mkScopedVar "2h" "2h");
              __interval_ms := Some (mkScopedVar "7200000" 7200000) |}
           86400000
           (mkScopedVar "30s" "30s") (mkScopedVar "2h" "2h")
           (mkScopedVar "30000" 30000) (mkScopedVar "7200000" 7200000));
    [reflexivity | reflexivity | reflexivity | reflexivity | simpl; lia].
Defined.

(** X12. [getTimeFieldRoundingClause] always truncates by a day, an
    hour, a minute or a second.  Without an interval it truncates by
    days and writes nothing.  With a hint and a span under 5000 ms it
    truncates by days as well, whatever the hint, and writes one line to
    the console, while [getIntervalInfo] answers one millisecond.  The
    console is written to in no other case. *)
Theorem rounding_clause_fallback scopedVars timespanMs timeField :
  (__interval scopedVars = None ->
     getTimeFieldRoundingClause scopedVars timespanMs timeField =
       Some (roundingClause (default "created_at" timeField) "DAY", [])) /\
  (forall iv hint,
     __interval scopedVars = Some iv ->
     __interval_ms scopedVars = Some hint ->
     timespanMs < 5000 ->
     getTimeFieldRoundingClause scopedVars timespanMs timeField =
       Some (roundingClause (default "created_at" timeField) "DAY",
             ["MILLIS precision is not supported"]) /\
     getIntervalInfo scopedVars timespanMs =
       Some {| interval := "1ms"; intervalMs := Some 1 |}) /\
  (forall clause console,
     getTimeFieldRoundingClause scopedVars timespanMs timeField =
       Some (clause, console) ->
     (exists unit_, unit_ ∈ ["DAY"; "HOUR"; "MINUTE"; "SECOND"] /\
        clause = roundingClause (default "created_at" timeField) unit_) /\
     (console <> [] <-> is_Some (__interval scopedVars) /\ timespanMs < 5000)).
Proof.
  unfold getTimeFieldRoundingClause, getIntervalInfo.
  change (SECOND * 5) with 5000.
  split; [|split].
  - intros ->. reflexivity.
  - intros iv hint -> -> Hts. simpl.
    destruct (Z.ltb_spec timespanMs 5000); [|lia]. split; reflexivity.
  - intros clause console.
    destruct (__interval scopedVars) as [iv|];
      [destruct (__interval_ms scopedVars) as [ms|]; simpl; [|discriminate]|].
    + destruct (Z.ltb_spec timespanMs 5000) as [Hlt|Hge].
      * intros [= <- <-]. split.
        -- exists "DAY". split; [left | reflexivity].
        -- split; [intros _; split; [eexists; reflexivity | exact Hlt]
                  | intros _; discriminate].
      * repeat match goal with
               | |- context [?a <? ?b] => destruct (Z.ltb_spec a b)
               end; intros [= <- <-];
          (split;
           [eexists; split; [|reflexivity]; apply list_elem_of_In; simpl; auto 10
           | split; [intros Hne; congruence | intros [_ Hlt]; lia]]).
    + intros [= <- <-]. split.
      * exists "DAY". split; [left | reflexivity].
      * split; [intros Hne; congruence | intros [[x Hx] _]; discriminate].
Qed.

Lemma rounding_clause_fallback_witness :
  getTimeFieldRoundingClause
    {| __interval := Some (mkScopedVar "20ms" "20ms");
       __interval_ms := Some (mkScopedVar "20" 20) |} 3000 (Some "timestamp") =
    Some (roundingClause "timestamp" "DAY", ["MILLIS precision is not supported"]) /\
  getIntervalInfo
    {| __interval := Some (mkScopedVar "20ms" "20ms");
       __interval_ms := Some (mkScopedVar "20" 20) |} 3000 =
    Some {| interval := "1ms"; intervalMs := Some 1 |}.
Proof.
  destruct (rounding_clause_fallback
              {| __interval := Some (mkScopedVar "20ms" "20ms");
                 __interval_ms := Some (mkScopedVar "20" 20) |} 3000
              (Some "timestamp")) as (_ & Hshort & _).
  apply (Hshort (mkScopedVar "20ms" "20ms") (mkScopedVar "20" 20));
    [reflexivity | reflexivity | lia].
Defined.

(** * Further properties of the pipeline *)

Section FurtherPipeline.
Variable getLogLevelFromKey : string -> LogLevel.t.
Variable LogLevelColor : LogLevel.t -> string.
Variable MISSING_VALUE : JsVal.
Variable RawData : Type.
Variable toDataFrame : RawData -> DataFrame.
Variable options : LogsVolumeQueryOptions.

Local Abbreviation aggregate :=
  (aggregateRawLogsVolume getLogLevelFromKey LogLevelColor MISSING_VALUE).
Local Abbreviation deliver1 :=
  (deliver getLogLevelFromKey LogLevelColor MISSING_VALUE RawData toDataFrame
     options).
Local Abbreviation react1 :=
  (react getLogLevelFromKey LogLevelColor MISSING_VALUE RawData toDataFrame
     options).
Local Abbreviation run :=
  (queryLogsVolume getLogLevelFromKey LogLevelColor MISSING_VALUE RawData
     toDataFrame options).

(** Plain batches are appended to [rawLogsVolume] in the order of their
    arrival. *)
Lemma foldl_deliver_raw batches : forall s,
  Forall plainBatch batches ->
  subscriptionClosed s = false ->
  rawLogsVolume (foldl deliver1 s batches) =
    rawLogsVolume s ++ (toDataFrame <$> batchData batches).
Proof.
  induction batches as [|sig batches IH]; intros s Hplain Hc; simpl.
  - rewrite app_nil_r. reflexivity.
  - apply Forall_cons in Hplain as [Hsig Hplain].
    destruct (deliver_plain getLogLevelFromKey LogLevelColor MISSING_VALUE
                RawData toDataFrame options s sig Hsig) as (_ & _ & Hc' & _).
    rewrite IH by (assumption || congruence).
    destruct Hsig as (r & -> & Hr).
    unfold deliver, on_next. rewrite Hc, Hr. simpl.
    unfold batchData. rewrite fmap_app, app_assoc. reflexivity.
Qed.

Lemma deliver_complete s out :
  observerStopped s = false -> subscriptionClosed s = false ->
  aggregate (rawLogsVolume s) = Some out ->
  emitted (deliver1 s UpComplete) =
    emitted s ++ [NextN (doneState (attachMeta options out)); CompleteN] /\
  observerStopped (deliver1 s UpComplete) = true /\
  queriesIssued (deliver1 s UpComplete) = queriesIssued s.
Proof.
  intros Hs Hc Hout. destruct s as [raw st em cl td q]. simpl in *. subst.
  unfold deliver, on_complete. simpl. rewrite Hout.
  unfold observer_complete, observer_next, observer_close, emit,
    subscription_unsubscribe. simpl.
  destruct td; simpl; rewrite <- app_assoc; repeat split.
Qed.

Lemma addTeardown_raw s : rawLogsVolume (addTeardown s) = rawLogsVolume s.
Proof. unfold addTeardown. destruct (observerStopped s); reflexivity. Qed.

(** The run of a subscription over plain batches followed by a
    completion, given what the reducer makes of their frames. *)
Lemma completion_run sync later batches out :
  completesAfter sync later batches ->
  aggregate (toDataFrame <$> batchData batches) = Some out ->
  emitted (run sync later) =
    [NextN loadingState; NextN (doneState (attachMeta options out)); CompleteN] /\
  observerStopped (run sync later) = true /\
  queriesIssued (run sync later) = 1%nat.
Proof.
  intros [Hplain Hshape] Hout.
  unfold queryLogsVolume, subscribe.
    set (s0 := issueQuery (observer_next _ start)).
    destruct Hshape as [(post & ->) | (now & then_ & post & -> & -> & ->)].
    - rewrite foldl_app. simpl.
      destruct (foldl_deliver_plain getLogLevelFromKey LogLevelColor
                  MISSING_VALUE RawData toDataFrame options batches s0 Hplain)
        as (He & Hs & Hc & _ & Hq).
      pose proof (foldl_deliver_raw batches s0 Hplain eq_refl) as Hraw.
      simpl in Hraw.
      destruct (deliver_complete (foldl deliver1 s0 batches) out Hs Hc)
        as (He1 & Hs1 & Hq1); [rewrite Hraw; exact Hout|].
      destruct (foldl_deliver_stopped getLogLevelFromKey LogLevelColor
                  MISSING_VALUE RawData toDataFrame options post _ Hs1)
        as (He2 & Hs2 & Hq2).
      destruct (addTeardown_fields
                  (foldl deliver1 (deliver1 (foldl deliver1 s0 batches) UpComplete)
                     post)) as (He3 & Hs3 & Hq3 & _).
      rewrite Hs2 in Hs3.
      destruct (foldl_react_stopped getLogLevelFromKey LogLevelColor
                  MISSING_VALUE RawData toDataFrame options later _ Hs3)
        as (-> & -> & ->).
      rewrite He3, He2, He1, He, Hq3, Hq2, Hq1, Hq. auto.
    - apply Forall_app in Hplain as [Hnow Hthen].
      destruct (foldl_deliver_plain getLogLevelFromKey LogLevelColor
                  MISSING_VALUE RawData toDataFrame options now s0 Hnow)
        as (He & Hs & Hc & _ & Hq).
      pose proof (foldl_deliver_raw now s0 Hnow eq_refl) as Hraw.
      simpl in Hraw.
      destruct (addTeardown_fields (foldl deliver1 s0 now))
        as (He0 & Hs0 & Hq0 & Hc0).
      specialize (Hc0 Hs). rewrite Hs in Hs0. rewrite Hc in Hc0.
      pose proof (addTeardown_raw (foldl deliver1 s0 now)) as Hraw0.
      rewrite foldl_app. simpl. rewrite foldl_fmap.
      set (s1 := addTeardown (foldl deliver1 s0 now)) in *.
      change (foldl (fun s b => react1 s (FromUpstream b)) s1 then_)
        with (foldl deliver1 s1 then_).
      destruct (foldl_deliver_plain getLogLevelFromKey LogLevelColor
                  MISSING_VALUE RawData toDataFrame options then_ s1 Hthen)
        as (He1 & Hs1 & Hc1 & _ & Hq1).
      rewrite Hs0 in Hs1. rewrite Hc0 in Hc1.
      pose proof (foldl_deliver_raw then_ s1 Hthen Hc0) as Hraw1.
      destruct (deliver_complete (foldl deliver1 s1 then_) out Hs1 Hc1)
        as (He2 & Hs2 & Hq2).
      { rewrite Hraw1, Hraw0, Hraw, <- fmap_app.
        unfold batchData in *. rewrite <- bind_app. exact Hout. }
      destruct (foldl_react_stopped getLogLevelFromKey LogLevelColor
                  MISSING_VALUE RawData toDataFrame options post _ Hs2)
        as (-> & -> & ->).
      rewrite He2, He1, He0, He, Hq2, Hq1, Hq0, Hq. auto.
Qed.

(** X13. When the datasource sends plain batches and then completes,
    the subscriber receives Loading, then the Done state whose data is
    the output of the reducer over all the frames of the batches in
    their order of arrival, with the provenance attached, then the
    completion, and nothing else whatever follows; one query has been
    issued and the subscription to the datasource is closed. *)
Theorem completion_publishes_done sync later batches :
  completesAfter sync later batches ->
  exists out,
    aggregate (toDataFrame <$> batchData batches) = Some out /\
    emitted (run sync later) =
      [NextN loadingState; NextN (doneState (attachMeta options out)); CompleteN] /\
    queriesIssued (run sync later) = 1%nat /\
    subscriptionClosed (run sync later) = true.
Proof.
  intros Hdone.
  destruct (aggregateRawLogsVolume_total getLogLevelFromKey LogLevelColor
              MISSING_VALUE (toDataFrame <$> batchData batches)) as [out Hout].
  exists out. split; [exact Hout|].
  destruct (completion_run sync later batches out Hdone Hout)
    as (Hem & Hstop & Hq).
  split; [exact Hem|]. split; [exact Hq|].
  apply (tornDown_run getLogLevelFromKey LogLevelColor MISSING_VALUE RawData
           toDataFrame options sync later), Hstop.
Qed.

(** X14. When the batches sent before the completion hold no frame, or
    more than one frame in all, the Done state is published all the
    same, with no data: the guard of the reducer degrades the result
    and is no error of the pipeline. *)
Theorem completion_without_single_frame sync later batches :
  completesAfter sync later batches ->
  length (batchData batches) <> 1%nat ->
  emitted (run sync later) =
    [NextN loadingState; NextN (doneState []); CompleteN].
Proof.
  intros Hdone Hlen.
  assert (Hout : aggregate (toDataFrame <$> batchData batches) = Some []).
  { destruct (batchData batches) as [|d [|d' rest]]; simpl in *;
      [reflexivity | congruence | reflexivity]. }
  destruct (completion_run sync later batches [] Hdone Hout) as (Hem & _).
  exact Hem.
Qed.

Lemma queriesIssued_react s ev : queriesIssued (react1 s ev) = queriesIssued s.
Proof.
  destruct ev as [sig|]; simpl.
  - apply (deliver_cases getLogLevelFromKey LogLevelColor MISSING_VALUE RawData
             toDataFrame options s sig).
  - unfold observer_unsubscribe, observer_close.
    destruct (observerStopped s), (teardownAdded s); reflexivity.
Qed.

Lemma queriesIssued_run sync later : queriesIssued (run sync later) = 1%nat.
Proof.
  unfold queryLogsVolume.
  assert (Hsub : queriesIssued
            (subscribe getLogLevelFromKey LogLevelColor MISSING_VALUE RawData
               toDataFrame options sync) = 1%nat).
  { unfold subscribe. set (s0 := issueQuery _).
    destruct (addTeardown_fields (foldl deliver1 s0 sync)) as (_ & _ & -> & _).
    assert (Hfold : forall l s, queriesIssued (foldl deliver1 s l) = queriesIssued s).
    { induction l as [|sig l IH]; intros s; simpl; [reflexivity|].
      rewrite IH.
      apply (deliver_cases getLogLevelFromKey LogLevelColor MISSING_VALUE
               RawData toDataFrame options s sig). }
    rewrite Hfold. reflexivity. }
  revert Hsub. generalize (subscribe getLogLevelFromKey LogLevelColor
                             MISSING_VALUE RawData toDataFrame options sync).
  induction later as [|ev later IH]; intros s Hs; simpl; [exact Hs|].
  apply IH. rewrite queriesIssued_react. exact Hs.
Qed.

(** X15. In the runs in which [datasource.query] returns and the caller
    unsubscribes, if at all, between two signals of the datasource (not
    from within its own [next] callback), whatever the datasource
    sends: the subscriber receives Loading alone, or Loading, a Done
    state and the completion, or Loading, an Error state and the error
    notification with the same error; once the stream has ended in
    either way the subscription to the datasource is closed; and the
    datasource has been queried once. *)
Theorem stream_shape sync later :
  (emitted (run sync later) = [NextN loadingState] \/
   (exists d, emitted (run sync later) =
                [NextN loadingState; NextN (doneState d); CompleteN]) \/
   (exists e, emitted (run sync later) =
                [NextN loadingState; NextN (errorState e); ErrorN e])) /\
  (emitted (run sync later) <> [NextN loadingState] ->
     subscriptionClosed (run sync later) = true) /\
  queriesIssued (run sync later) = 1%nat.
Proof.
  pose proof (lifecycle_run getLogLevelFromKey LogLevelColor MISSING_VALUE
                RawData toDataFrame options sync later) as Hl.
  pose proof (tornDown_run getLogLevelFromKey LogLevelColor MISSING_VALUE
                RawData toDataFrame options sync later) as [_ Hclosed].
  split; [|split; [|apply queriesIssued_run]].
  - destruct Hl as [[_ Hem] | [_ Hem]]; [left; exact Hem | exact Hem].
  - intros Hne. apply Hclosed.
    destruct Hl as [[_ Hem] | [Hstop _]]; [contradiction | exact Hstop].
Qed.

(** X16. The provenance goes to the first series and to no other: in
    what the [complete] handler publishes, the series are those of the
    reducer, with their times, values and configuration, the first one
    carries the targets and the absolute range of the options, and the
    others carry no meta. *)
Theorem provenance_on_first_series rawLogsVolume out :
  aggregate rawLogsVolume = Some out ->
  length (attachMeta options out) = length out /\
  forall i f, attachMeta options out !! i = Some f ->
    exists g,
      out !! i = Some g /\
      Time f = Time g /\ Value f = Value g /\ config f = config g /\
      meta f =
        match i with
        | O => Some {| custom_targets := targets options;
                       custom_absoluteRange :=
                         (from (range options), to (range options)) |}
        | S _ => None
        end.
Proof.
  intros Hout.
  pose proof (aggregate_meta getLogLevelFromKey LogLevelColor MISSING_VALUE
                rawLogsVolume out Hout) as Hmeta.
  destruct out as [|first rest]; simpl.
  - split; [reflexivity|]. intros i f Hi. destruct i; discriminate.
  - split; [reflexivity|]. intros [|i] f Hi; simpl in Hi.
    + injection Hi as <-. exists first. simpl. auto.
    + exists f. split; [exact Hi|]. repeat split; try reflexivity.
      apply Forall_cons in Hmeta as [_ Hrest].
      eapply Forall_lookup_1 in Hrest; [exact Hrest | exact Hi].
Qed.
End FurtherPipeline.

Lemma completion_publishes_done_witness :
  exists out,
    aggregateRawLogsVolume classify plainColor VUndefined
      (id <$> batchData [UpNext warnBatch]) = Some out /\
    emitted
      (queryLogsVolume classify plainColor VUndefined DataFrame id someOptions []
         [FromUpstream (UpNext warnBatch); FromUpstream UpComplete;
          FromUpstream (UpNext warnBatch)]) =
      [NextN loadingState; NextN (doneState (attachMeta someOptions out));
       CompleteN] /\
    queriesIssued
      (queryLogsVolume classify plainColor VUndefined DataFrame id someOptions []
         [FromUpstream (UpNext warnBatch); FromUpstream UpComplete;
          FromUpstream (UpNext warnBatch)]) = 1%nat /\
    subscriptionClosed
      (queryLogsVolume classify plainColor VUndefined DataFrame id someOptions []
         [FromUpstream (UpNext warnBatch); FromUpstream UpComplete;
          FromUpstream (UpNext warnBatch)]) = true.
Proof.
  apply (completion_publishes_done classify plainColor VUndefined DataFrame id
           someOptions []
           [FromUpstream (UpNext warnBatch); FromUpstream UpComplete;
            FromUpstream (UpNext warnBatch)]
           [UpNext warnBatch]).
  split.
  - constructor; [|constructor]. exists warnBatch. split; reflexivity.
  - right. exists [], [UpNext warnBatch], [FromUpstream (UpNext warnBatch)].
    repeat split.
Defined.

Lemma completion_without_single_frame_witness :
  emitted
    (queryLogsVolume classify plainColor VUndefined DataFrame id someOptions
       [UpNext warnBatch; UpNext warnBatch; UpComplete] []) =
    [NextN loadingState; NextN (doneState []); CompleteN].
Proof.
  apply (completion_without_single_frame classify plainColor VUndefined
           DataFrame id someOptions
           [UpNext warnBatch; UpNext warnBatch; UpComplete] []
           [UpNext warnBatch; UpNext warnBatch]).
  - split.
    + repeat constructor; exists warnBatch; split; reflexivity.
    + left. exists []. reflexivity.
  - simpl. lia.
Defined.

Lemma stream_shape_witness :
  subscriptionClosed
    (queryLogsVolume classify plainColor VUndefined DataFrame id someOptions
       [UpNext warnBatch; UpComplete] []) = true.
Proof.
  destruct (stream_shape classify plainColor VUndefined DataFrame id someOptions
              [UpNext warnBatch; UpComplete] []) as (_ & Hclosed & _).
  apply Hclosed. discriminate.
Defined.

Lemma provenance_on_first_series_witness :
  exists out,
    aggregateRawLogsVolume classify plainColor VUndefined [mixedFrame] = Some out /\
    (meta <$> attachMeta someOptions out) =
      [Some {| custom_targets := [mkDataQuery "A"];
               custom_absoluteRange := (1700000000000, 1700000120000) |}] /\
    length (attachMeta someOptions out) = length out.
Proof.
  destruct (aggregateRawLogsVolume classify plainColor VUndefined [mixedFrame])
    as [out|] eqn:Hout; [|discriminate].
  exists out. split; [reflexivity|].
  destruct (provenance_on_first_series classify plainColor VUndefined someOptions
              [mixedFrame] out Hout) as [Hlen _].
  split; [|exact Hlen].
  vm_compute in Hout. injection Hout as <-. reflexivity.
Defined.

(** * The emitted levels once more *)

Section EmittedLevels.
Variable getLogLevelFromKey : string -> LogLevel.t.
Variable LogLevelColor : LogLevel.t -> string.
Variable MISSING_VALUE : JsVal.

Local Abbreviation aggregate :=
  (aggregateRawLogsVolume getLogLevelFromKey LogLevelColor MISSING_VALUE).
Local Abbreviation levels :=
  (logLevelToDataFrame getLogLevelFromKey LogLevelColor MISSING_VALUE).

(** X17. For all cells, negative ones too, a level whose fully folded
    series has a row holding a positive number is emitted. *)
Theorem positive_row_is_emitted raw timeField :
  timeFieldOf raw = Some timeField ->
  exists m out,
    levels timeField (levelFieldsOf raw) = Some m /\
    aggregate [raw] = Some out /\
    forall lvl e, Map_get lvl m = Some e ->
      Exists positive (Value (frame e)) -> frame e ∈ out.
Proof.
  intros Htf.
  destruct (logLevelToDataFrame_total getLogLevelFromKey LogLevelColor
              MISSING_VALUE timeField (levelFieldsOf raw)) as (m & Hm & Hs & _).
  exists m, (nonZeroFrames m). split; [exact Hm|]. split.
  { rewrite aggregate_single, Htf, Hm. reflexivity. }
  intros lvl e Hget Hpos. rewrite nonZeroFrames_filter.
  apply list_elem_of_fmap_2, list_elem_of_filter. split.
  - apply (logLevelToDataFrame_flag getLogLevelFromKey LogLevelColor
             MISSING_VALUE _ _ _ _ _ Hm Hget).
    apply Exists_positive_lookup in Hpos as (i & v & Hi & Hv).
    assert (Hlt : (i < length (values timeField))%nat).
    { destruct (Hs lvl e Hget) as [_ Hlen]. rewrite <- Hlen.
      eapply lookup_lt_Some, Hi. }
    exists i. split; [exact Hlt|].
    rewrite (logLevelToDataFrame_row getLogLevelFromKey LogLevelColor
               MISSING_VALUE _ _ _ _ _ _ Hm Hget Hlt) in Hi.
    injection Hi as <-.
    set (cells := columnCells getLogLevelFromKey lvl (levelFieldsOf raw) i) in *.
    assert (Hne : cells <> []).
    { unfold cells, columnCells. intros Hnil. apply fmap_nil_inv in Hnil.
      apply (logLevelToDataFrame_keys getLogLevelFromKey LogLevelColor
               MISSING_VALUE _ _ _ lvl Hm) in Hnil. congruence. }
    exists (pred (length cells)). split.
    + destruct cells; [congruence | simpl; lia].
    + rewrite take_ge by lia. apply gt_zero_spec. exact Hv.
  - unfold Map_values. apply Map_get_elem_of in Hget.
    apply (list_elem_of_fmap_2 snd) in Hget. exact Hget.
Qed.

Lemma partition_first_time timeField fs :
  isTimeField timeField = true ->
  partitionFields
    (timeField :: filter (fun f => isTimeField f = false) fs) =
  ([timeField], filter (fun f => isTimeField f = false) fs).
Proof.
  intros Htime. unfold partitionFields.
  rewrite !filter_cons. rewrite decide_True by exact Htime.
  rewrite decide_False by (rewrite Htime; discriminate).
  induction fs as [|f fs IH]; [reflexivity|].
  rewrite filter_cons.
  destruct (decide (isTimeField f = false)) as [Hf|Hf]; [|exact IH].
  rewrite !filter_cons.
  rewrite decide_False by (rewrite Hf; discriminate).
  rewrite decide_True by exact Hf.
  injection IH as IH1 IH2. rewrite IH1, IH2. reflexivity.
Qed.

(** X18. The outcome depends on the first field named 'time' and on the
    other fields in their order only: where the time field stands among
    the fields does not matter, and further fields named 'time' are
    ignored. *)
Theorem only_first_time_field_counts raw timeField :
  timeFieldOf raw = Some timeField ->
  aggregate [mkDataFrame (timeField :: levelFieldsOf raw)] = aggregate [raw].
Proof.
  intros Htf.
  assert (Htime : isTimeField timeField = true).
  { unfold timeFieldOf, partitionFields in Htf. simpl in Htf.
    apply head_Some_elem_of in Htf.
    apply list_elem_of_filter in Htf as [Htime _]. exact Htime. }
  rewrite !aggregate_single, Htf.
  unfold timeFieldOf, levelFieldsOf. simpl fields.
  rewrite (partition_first_time _ _ Htime). reflexivity.
Qed.
End EmittedLevels.

Lemma positive_row_is_emitted_witness :
  exists m out,
    logLevelToDataFrame classify plainColor VUndefined
      (mkField "time" (nums [0; 60000])) (levelFieldsOf mixedFrame) = Some m /\
    aggregateRawLogsVolume classify plainColor VUndefined [mixedFrame] = Some out /\
    forall lvl e, Map_get lvl m = Some e ->
      Exists positive (Value (frame e)) -> frame e ∈ out.
Proof.
  apply (positive_row_is_emitted classify plainColor VUndefined mixedFrame
           (mkField "time" (nums [0; 60000]))).
  reflexivity.
Defined.

Lemma only_first_time_field_counts_witness :
  aggregateRawLogsVolume classify plainColor VUndefined
    [mkDataFrame [ mkField "time" (nums [0; 60000]);
                   mkField "warn" (nums [1; 0]) ]] =
  aggregateRawLogsVolume classify plainColor VUndefined
    [mkDataFrame [ mkField "warn" (nums [1; 0]);
                   mkField "time" (nums [0; 60000]);
                   mkField "time" (nums [5; 6; 7]) ]].
Proof.
  apply (only_first_time_field_counts classify plainColor VUndefined
           (mkDataFrame [ mkField "warn" (nums [1; 0]);
                          mkField "time" (nums [0; 60000]);
                          mkField "time" (nums [5; 6; 7]) ])
           (mkField "time" (nums [0; 60000]))).
  reflexivity.
Defined.

(** * The order of the columns and the addition of doubles *)








Section OrderOfColumnsExact.
Variable getLogLevelFromKey : string -> LogLevel.t.
Variable LogLevelColor : LogLevel.t -> string.
Variable MISSING_VALUE : JsVal.

Local Abbreviation levels :=
  (logLevelToDataFrame getLogLevelFromKey LogLevelColor MISSING_VALUE).
Local Abbreviation cells := (columnCells getLogLevelFromKey).

End OrderOfColumnsExact.



(** The addition of the kernel's binary64 numbers agrees with [jsAdd]
    and [toDouble] at the numbers of the counterexample. *)
Example jsAdd_is_binary64_addition :
  PrimFloat.add (PrimFloat.of_uint63 (Uint63.of_Z (2 ^ 53)))
                (PrimFloat.of_uint63 (Uint63.of_Z 1))
    = PrimFloat.of_uint63 (Uint63.of_Z (jsAdd (2 ^ 53) 1)) /\
  PrimFloat.add (PrimFloat.of_uint63 (Uint63.of_Z (2 ^ 53)))
                (PrimFloat.of_uint63 (Uint63.of_Z 2))
    = PrimFloat.of_uint63 (Uint63.of_Z (jsAdd (2 ^ 53) 2)) /\
  PrimFloat.add (PrimFloat.of_uint63 (Uint63.of_Z (2 ^ 53 + 2)))
                (PrimFloat.of_uint63 (Uint63.of_Z 1))
    = PrimFloat.of_uint63 (Uint63.of_Z (jsAdd (2 ^ 53 + 2) 1)) /\
  jsAdd (2 ^ 53) 1 = 2 ^ 53 /\
  jsAdd (2 ^ 53 + 2) 1 = 2 ^ 53 + 4 /\
  PrimFloat.ltb (PrimFloat.of_uint63 (Uint63.of_Z (2 ^ 53)))
                (PrimFloat.of_uint63 (Uint63.of_Z (2 ^ 53 + 2))) = true.
Proof. vm_compute. repeat split. Qed.
